(** * Python-web-terminal: the natural-language resolution engine

    A shallow embedding of [src/terminal.py] (the literal command
    dispatcher), [src/ai_terminal.py] (the natural-language front end) and
    the route of [src/web_terminal.py], with the properties of the
    resolution engine, its handler adapters, the command history, the
    tokenizer, the commands and the main loop.

    Conventions of the embedding:
    - a Python [str] is a [string]; a character is one of the 256 code
      points of the Latin-1 block, with Python's classification of them
      ([str.isspace], [str.lower], the [\w] and [\s] classes of [re]);
    - [os.path] is [posixpath];
    - the operating system is a type class [OS] over an abstract world;
      an operation that can raise returns [Some e] for the exception;
    - a method that can raise returns a [result]; a method with side
      effects threads the terminal state [St]. *)

From Stdlib Require Import Ascii String NArith Bool DecimalString.
From stdpp Require Import base tactics option list gmap strings sorting.

Local Open Scope N_scope.

(** ** Python string primitives *)
Module Py.

Definition code (c : ascii) : N := N_of_ascii c.

Definition between (lo hi : N) (c : ascii) : bool :=
  (lo <=? code c) && (code c <=? hi).

(** [str.isspace] on one character: TAB..CR, FS..US, SPACE, NEL, NBSP. *)
Definition isspace (c : ascii) : bool :=
  between 9 13 c || between 28 32 c || (code c =? 133) || (code c =? 160).

(** [str.lower] on one character. *)
Definition lower_char (c : ascii) : ascii :=
  if between 65 90 c || (between 192 222 c && negb (code c =? 215))
  then ascii_of_N (code c + 32)
  else c.

Fixpoint lower (s : string) : string :=
  match s with
  | EmptyString => EmptyString
  | String c s' => String (lower_char c) (lower s')
  end.

(** The [\w] class of a [str] pattern: [str.isalnum] or the underscore. *)
Definition isword (c : ascii) : bool :=
  between 48 57 c || between 65 90 c || between 97 122 c || (code c =? 95)
  || (code c =? 170) || (code c =? 178) || (code c =? 179) || (code c =? 181)
  || (code c =? 185) || (code c =? 186) || between 188 190 c
  || between 192 214 c || between 216 246 c || between 248 255 c.

Definition is_empty (s : string) : bool :=
  match s with EmptyString => true | String _ _ => false end.

Fixpoint lstrip (s : string) : string :=
  match s with
  | EmptyString => EmptyString
  | String c s' => if isspace c then lstrip s' else s
  end.

Fixpoint rstrip (s : string) : string :=
  match s with
  | EmptyString => EmptyString
  | String c s' =>
      let r := rstrip s' in
      if is_empty r && isspace c then EmptyString else String c r
  end.

(** [s.strip()] *)
Definition strip (s : string) : string := rstrip (lstrip s).

(** [s.split()]: the maximal runs of non-whitespace characters.
    [cur] is the run being read, [None] between runs. *)
Fixpoint split_go (cur : option string) (s : string) : list string :=
  match s with
  | EmptyString => option_list (String.rev <$> cur)
  | String c s' =>
      if isspace c
      then option_list (String.rev <$> cur) ++ split_go None s'
      else split_go (Some (String c (default EmptyString cur))) s'
  end.

Definition split (s : string) : list string := split_go None s.

(** [sep.join(l)] *)
Fixpoint join (sep : string) (l : list string) : string :=
  match l with
  | [] => ""
  | [x] => x
  | x :: rest => x +:+ sep +:+ join sep rest
  end.

(** [x in l] for a list of strings *)
Definition str_in (x : string) (l : list string) : bool :=
  existsb (String.eqb x) l.

(** [s.startswith(p)] *)
Definition startswith (s p : string) : bool := String.prefix p s.

(** every character is whitespace (vacuously so for the empty string) *)
Fixpoint all_space (s : string) : bool :=
  match s with
  | EmptyString => true
  | String c s' => isspace c && all_space s'
  end.

(** no character is whitespace *)
Fixpoint no_space (s : string) : bool :=
  match s with
  | EmptyString => true
  | String c s' => negb (isspace c) && no_space s'
  end.

(** a token: not empty, no whitespace *)
Definition is_word (s : string) : bool := negb (is_empty s) && no_space s.

End Py.

(** ** The fragment of [re] used by the pattern table *)
Module Re.

(** Character sets that occur under a repetition. *)
Inductive cclass : Type :=
| CSlot   (* [\w\s./\\-] *)
| CAny    (* .  (no DOTALL: anything but a newline) *)
| CWord.  (* \w *)

Definition in_class (k : cclass) (c : ascii) : bool :=
  match k with
  | CSlot => Py.isword c || Py.isspace c
             || Py.str_in (String c "") ["."; "/"; "\"; "-"]
  | CAny => negb (Py.code c =? 10)
  | CWord => Py.isword c
  end.

Inductive regex : Type :=
| Lit (p : string)          (* literal text *)
| Seq (r1 r2 : regex)       (* r1r2 *)
| Alt (r1 r2 : regex)       (* r1|r2 *)
| Opt (r : regex)           (* r? *)
| Star (k : cclass)         (* k* *)
| Plus (k : cclass)         (* k+ *)
| NGrp (r : regex)          (* (?:r) *)
| Grp (r : regex).          (* (r), a capturing group *)

Declare Scope re_scope.
Delimit Scope re_scope with re.
Bind Scope re_scope with regex.
Infix "∙" := Seq (at level 60, right associativity) : re_scope.
Infix "∥" := Alt (at level 65, right associativity) : re_scope.

(** The pattern text of a [regex], to compare with the source. *)
Definition show_class (k : cclass) : string :=
  match k with
  | CSlot => "[\w\s./\\-]"
  | CAny => "."
  | CWord => "\w"
  end.

Fixpoint show (r : regex) : string :=
  match r with
  | Lit p => p
  | Seq r1 r2 => show r1 +:+ show r2
  | Alt r1 r2 => show r1 +:+ "|" +:+ show r2
  | Opt r => show r +:+ "?"
  | Star k => show_class k +:+ "*"
  | Plus k => show_class k +:+ "+"
  | NGrp r => "(?:" +:+ show r +:+ ")"
  | Grp r => "(" +:+ show r +:+ ")"
  end.

(** [show] is read back unambiguously when a [?] follows one character
    or a group, no alternation stands directly under a concatenation,
    and literal text has no metacharacter (letters and spaces only). *)
Definition plain (c : ascii) : bool :=
  Py.between 65 90 c || Py.between 97 122 c || (Py.code c =? 32).

Fixpoint all_plain (p : string) : bool :=
  match p with
  | EmptyString => true
  | String c p' => plain c && all_plain p'
  end.

Definition is_alt (r : regex) : bool :=
  match r with Alt _ _ => true | _ => false end.

Definition is_atom (r : regex) : bool :=
  match r with
  | Lit (String _ EmptyString) | NGrp _ | Grp _ => true
  | _ => false
  end.

Fixpoint wf (r : regex) : bool :=
  match r with
  | Lit p => all_plain p
  | Seq r1 r2 => negb (is_alt r1) && negb (is_alt r2) && wf r1 && wf r2
  | Alt r1 r2 => wf r1 && wf r2
  | Opt r => is_atom r && wf r
  | Star _ | Plus _ => true
  | NGrp r | Grp r => wf r
  end.

(** With IGNORECASE a pattern character matches the characters that
    have its lower case. *)
Definition eq_ci (a b : ascii) : bool :=
  Ascii.eqb (Py.lower_char a) (Py.lower_char b).

(** Literal text at the head of [s]: the rest of [s] after it. *)
Fixpoint lit (p s : string) : option string :=
  match p with
  | EmptyString => Some s
  | String a p' =>
      match s with
      | String b s' => if eq_ci a b then lit p' s' else None
      | EmptyString => None
      end
  end.

(** The text between the start [s] of a group and the rest [s']. *)
Definition consumed (s s' : string) : string :=
  String.substring 0 (String.length s - String.length s')%nat s.

Section Matcher.
Context {R : Type}.

(** Greedy repetition of a character set: the longest run first, then
    one character less on backtracking. *)
Fixpoint rep (f : ascii → bool) (s : string) (k : string → option R)
  : option R :=
  match s with
  | String c s' =>
      if f c
      then match rep f s' k with
           | Some x => Some x
           | None => k s
           end
      else k s
  | EmptyString => k s
  end.

(** Backtracking matcher in continuation-passing style: [k] is given
    the rest of the input and the groups closed so far. *)
Fixpoint m (r : regex) (s : string) (caps : list string)
    (k : string → list string → option R) : option R :=
  match r with
  | Lit p =>
      match lit p s with
      | Some s' => k s' caps
      | None => None
      end
  | Seq r1 r2 => m r1 s caps (λ s' caps', m r2 s' caps' k)
  | Alt r1 r2 =>
      match m r1 s caps k with
      | Some x => Some x
      | None => m r2 s caps k
      end
  | Opt r1 =>
      match m r1 s caps k with
      | Some x => Some x
      | None => k s caps
      end
  | Star c => rep (in_class c) s (λ s', k s' caps)
  | Plus c =>
      match s with
      | String a s' =>
          if in_class c a then rep (in_class c) s' (λ s'', k s'' caps)
          else None
      | EmptyString => None
      end
  | NGrp r1 => m r1 s caps k
  | Grp r1 => m r1 s caps (λ s' caps', k s' (caps' ++ [consumed s s']))
  end.
End Matcher.

(** [re.match(r, s, re.IGNORECASE)]: the groups of a match at the start *)
Definition match_here (r : regex) (s : string) : option (list string) :=
  m r s [] (λ _ caps, Some caps).

(** [re.search(r, s, re.IGNORECASE)], as [match.groups()] of the leftmost
    match, [None] when there is none. *)
Fixpoint search (r : regex) (s : string) : option (list string) :=
  match match_here r s with
  | Some g => Some g
  | None =>
      match s with
      | String _ s' => search r s'
      | EmptyString => None
      end
  end.

(** A sufficient condition for a pattern to read, in every match, a
    character that is not whitespace. *)
Fixpoint needs_ink (r : regex) : bool :=
  match r with
  | Lit p => negb (Py.all_space p)
  | Seq r1 r2 => needs_ink r1 || needs_ink r2
  | Alt r1 r2 => needs_ink r1 && needs_ink r2
  | Opt _ | Star _ | Plus _ => false
  | NGrp r1 | Grp r1 => needs_ink r1
  end.

End Re.

(** ** [shlex.quote] *)
Module Shlex.

(** The characters outside [[^\w@%+=:,./-]] with [re.ASCII]. *)
Definition safe (c : ascii) : bool :=
  Py.between 48 57 c || Py.between 65 90 c || Py.between 97 122 c
  || Py.str_in (String c "") ["_"; "@"; "%"; "+"; "="; ":"; ","; "."; "/"; "-"].

Fixpoint all_safe (s : string) : bool :=
  match s with
  | EmptyString => true
  | String c s' => safe c && all_safe s'
  end.

Definition squote : ascii := ascii_of_N 39.
Definition dquote : ascii := ascii_of_N 34.

(** the five characters that replace a single quote *)
Definition escaped_squote : string :=
  String squote (String dquote (String squote (String dquote
    (String squote EmptyString)))).

(** [s.replace("'", ...)] *)
Fixpoint escape (s : string) : string :=
  match s with
  | EmptyString => EmptyString
  | String c s' =>
      if Ascii.eqb c squote then escaped_squote +:+ escape s'
      else String c (escape s')
  end.

Definition quote (s : string) : string :=
  if Py.is_empty s then "''"
  else if all_safe s then s
  else "'" +:+ escape s +:+ "'".

End Shlex.

(** ** [os.path] ([posixpath]) *)
Module PosixPath.

Definition sep : ascii := ascii_of_N 47.

(** the text after the last separator; [acc] is the text since the last
    separator read *)
Fixpoint basename_go (acc s : string) : string :=
  match s with
  | EmptyString => String.rev acc
  | String c s' =>
      if Ascii.eqb c sep then basename_go EmptyString s'
      else basename_go (String c acc) s'
  end.

Definition basename (p : string) : string := basename_go EmptyString p.

Definition endswith_sep (p : string) : bool :=
  match String.rev p with
  | String c _ => Ascii.eqb c sep
  | EmptyString => false
  end.

(** [os.path.join(a, b)] *)
Definition join (a b : string) : string :=
  if Py.startswith b "/" then b
  else if Py.is_empty a || endswith_sep a then a +:+ b
  else a +:+ "/" +:+ b.

End PosixPath.

(** ** [terminal.py]: commands, registry and dispatcher *)
Module Term.

(** The exception classes the commands distinguish; every one is an
    [Exception]. [exn_str] is [str(e)]. *)
Inductive exn_class : Type :=
| FileNotFoundError
| FileExistsError
| PermissionError
| NotADirectoryError
| IsADirectoryError
| OSError
| TypeError.

Record exn : Type := Exn { exn_cls : exn_class; exn_str : string }.

Inductive result (A : Type) : Type :=
| Ok (a : A)
| Raise (e : exn).
Arguments Ok {A} a.
Arguments Raise {A} e.

Definition nl : string := String (ascii_of_N 10) EmptyString.

(** The operating system, over a world [W]. An operation returns the
    exception it raises, if any, and the world it leaves.
    [builtin_execute name args history] is the [execute] method of the
    command classes of [terminal.py] that are not embedded below (pwd,
    ls, cd, touch, cat, ps, top, df, history, help): none of them writes
    the terminal's fields. *)
Class OS (W : Type) : Type := {
  os_getcwd : W → string;
  os_path_isdir : string → W → bool;
  os_path_exists : string → W → bool;
  os_mkdir : string → W → option exn * W;
  os_makedirs : string → W → option exn * W;
  os_remove : string → W → option exn * W;
  os_rename : string → string → W → option exn * W;
  shutil_rmtree : string → W → option exn * W;
  shutil_move : string → string → W → option exn * W;
  shutil_copytree : string → string → W → option exn * W;
  shutil_copy2 : string → string → W → option exn * W;
  builtin_execute :
    string → list string → list string → W → result string * W;
}.

Section Terminal.
Context {W : Type} `{!OS W}.

(** The mutable fields of a [Terminal] and the world it acts on. *)
Record St : Type := mkSt {
  command_history : list string;
  running : bool;
  current_dir : string;
  world : W;
}.

Definition set_world (w : W) (st : St) : St :=
  mkSt (command_history st) (running st) (current_dir st) w.

(** [self.command_history.append(line)] *)
Definition history_append (line : string) (st : St) : St :=
  mkSt (command_history st ++ [line]) (running st) (current_dir st)
       (world st).

(** Computations that read and write [St] and may raise. *)
Definition M (A : Type) : Type := St → result A * St.

Definition ret {A} (a : A) : M A := λ st, (Ok a, st).
Definition raise {A} (e : exn) : M A := λ st, (Raise e, st).
Definition bind {A B} (c : M A) (f : A → M B) : M B :=
  λ st, match c st with
        | (Ok a, st') => f a st'
        | (Raise e, st') => (Raise e, st')
        end.

(** [try: c  except Exception as e: h e] *)
Definition try_except {A} (c : M A) (h : exn → M A) : M A :=
  λ st, match c st with
        | (Ok a, st') => (Ok a, st')
        | (Raise e, st') => h e st'
        end.

(** a call of an operating-system operation *)
Definition os_call (op : W → option exn * W) : M unit :=
  λ st, match op (world st) with
        | (None, w) => (Ok tt, set_world w st)
        | (Some e, w) => (Raise e, set_world w st)
        end.

(** a query of the world *)
Definition os_query {A} (q : W → A) : M A := λ st, (Ok (q (world st)), st).

(** The interface [Command]. *)
Record Command : Type := mkCommand {
  name : string;
  description : string;
  execute : list string → M string;
}.

(** [Command.help] *)
Definition help (c : Command) : string :=
  name c +:+ ": " +:+ description c.

(** A command class that is not embedded: its [execute] is the
    operating system's. *)
Definition builtin (n d : string) : Command :=
  mkCommand n d (λ args st,
    let '(r, w) := builtin_execute n args (command_history st) (world st) in
    (r, set_world w st)).

Definition PwdCommand := builtin "pwd" "Print the current working directory".
Definition LsCommand := builtin "ls" "List directory contents".
Definition CdCommand := builtin "cd" "Change the current working directory".
Definition TouchCommand :=
  builtin "touch" "Create empty files or update file timestamps".
Definition CatCommand := builtin "cat" "Concatenate and print files".
Definition PsCommand := builtin "ps" "Report process status".
Definition TopCommand :=
  builtin "top" "Display system resource usage and processes".
Definition DfCommand := builtin "df" "Report file system disk space usage".
Definition HistoryCommand := builtin "history" "Display command history".
Definition HelpCommand :=
  builtin "help" "Display help information for commands".

(** [MkdirCommand.execute]: one pass of the loop over the paths. The
    three classes named by the [except] clauses become messages, any
    other exception leaves the loop. *)
Definition mkdir_one (create_parents : bool) (path : string)
    (errors : list string) : M (list string) :=
  try_except
    (bind (os_call (if create_parents then os_makedirs path
                    else os_mkdir path))
          (λ _, ret errors))
    (λ e, match exn_cls e with
          | FileExistsError =>
              ret (errors ++ ["mkdir: cannot create directory '" +:+ path
                              +:+ "': File exists"])
          | FileNotFoundError =>
              ret (errors ++ ["mkdir: cannot create directory '" +:+ path
                              +:+ "': No such file or directory"])
          | PermissionError =>
              ret (errors ++ ["mkdir: cannot create directory '" +:+ path
                              +:+ "': Permission denied"])
          | _ => raise e
          end).

Fixpoint for_each (body : string → list string → M (list string))
    (paths : list string) (errors : list string) : M (list string) :=
  match paths with
  | [] => ret errors
  | p :: rest => bind (body p errors) (for_each body rest)
  end.

Definition MkdirCommand_execute (args : list string) : M string :=
  match args with
  | [] => ret "mkdir: missing operand"
  | _ =>
      let create_parents :=
        Py.str_in "-p" args || Py.str_in "--parents" args in
      let args :=
        if create_parents
        then filter (λ a, a ≠ "-p" ∧ a ≠ "--parents") args
        else args in
      bind (for_each (mkdir_one create_parents) args [])
           (λ errors, ret (Py.join nl errors))
  end.

Definition MkdirCommand :=
  mkCommand "mkdir" "Create new directories" MkdirCommand_execute.

(** [RmCommand.execute]: one pass of the loop over the paths. Every
    exception is caught. *)
Definition rm_one (recursive force : bool) (path : string)
    (errors : list string) : M (list string) :=
  try_except
    (bind (os_query (os_path_isdir path)) (λ is_dir,
       if is_dir
       then if recursive
            then bind (os_call (shutil_rmtree path)) (λ _, ret errors)
            else ret (errors ++ ["rm: cannot remove '" +:+ path
                                 +:+ "': Is a directory"])
       else bind (os_call (os_remove path)) (λ _, ret errors)))
    (λ e, match exn_cls e with
          | FileNotFoundError =>
              if force then ret errors
              else ret (errors ++ ["rm: cannot remove '" +:+ path
                                   +:+ "': No such file or directory"])
          | PermissionError =>
              ret (errors ++ ["rm: cannot remove '" +:+ path
                              +:+ "': Permission denied"])
          | _ =>
              ret (errors ++ ["rm: cannot remove '" +:+ path +:+ "': "
                              +:+ exn_str e])
          end).

Definition RmCommand_execute (args : list string) : M string :=
  match args with
  | [] => ret "rm: missing operand"
  | _ =>
      let recursive :=
        Py.str_in "-r" args || Py.str_in "--recursive" args in
      let force := Py.str_in "-f" args || Py.str_in "--force" args in
      let paths :=
        filter (λ a, Py.startswith a "-" = false) args in
      bind (for_each (rm_one recursive force) paths [])
           (λ errors, ret (Py.join nl errors))
  end.

Definition RmCommand :=
  mkCommand "rm" "Remove files or directories" RmCommand_execute.

Definition EchoCommand :=
  mkCommand "echo" "Display a line of text" (λ args, ret (Py.join " " args)).

Definition ClearCommand :=
  mkCommand "clear" "Clear the terminal screen" (λ _, ret "__CLEAR__").

Definition ExitCommand :=
  mkCommand "exit" "Exit the terminal" (λ _, ret "__EXIT__").

(** [Terminal.register_command] *)
Definition register_command (c : Command)
    (commands : gmap string Command) : gmap string Command :=
  <[name c := c]> commands.

(** [Terminal.register_commands], from the empty registry of
    [__init__] *)
Definition register_commands : gmap string Command :=
  foldl (λ commands c, register_command c commands) ∅
    [PwdCommand; LsCommand; CdCommand; MkdirCommand; RmCommand;
     TouchCommand; CatCommand;
     EchoCommand; PsCommand; TopCommand; DfCommand;
     HistoryCommand; ClearCommand; ExitCommand; HelpCommand].

(** The fields of a new [Terminal]. *)
Definition init (w : W) : St := mkSt [] true (os_getcwd w) w.

(** [Terminal.parse_command] *)
Definition parse_command (input_line : string) : string * list string :=
  match Py.split (Py.strip input_line) with
  | [] => ("", [])
  | command :: args => (command, args)
  end.

(** [Terminal.execute_command], for a terminal whose registry is
    [commands] *)
Definition execute_command (commands : gmap string Command)
    (input_line : string) : M string :=
  if Py.is_empty (Py.strip input_line) then ret ""
  else λ st,
    let st := history_append input_line st in
    let '(cmd_name, args) := parse_command input_line in
    match commands !! cmd_name with
    | Some c => execute c args st
    | None => ret (cmd_name +:+ ": command not found") st
    end.

(** A computation that leaves [command_history] as it found it. *)
Definition keeps_history {A} (c : M A) : Prop :=
  ∀ st, command_history (c st).2 = command_history st.

(** A computation that only appends to [command_history]. *)
Definition grows_history {A} (c : M A) : Prop :=
  ∀ st, command_history st `prefix_of` command_history (c st).2.

End Terminal.

Arguments St W : clear implicits.
Arguments M W A : clear implicits.
Arguments Command W : clear implicits.
Arguments keeps_history {W A} c.
Arguments grows_history {W A} c.

End Term.

(** ** [ai_terminal.py]: the natural-language command *)
Module NLP.
Import Re Term.

(** The bound methods that occur in [command_patterns]. *)
Inductive handler : Type :=
| H_create_directory | H_create_file | H_list_directory
| H_show_file_content | H_remove_item | H_move_item | H_rename_item
| H_copy_item | H_change_directory
| H_list_processes | H_show_resource_usage | H_show_disk_usage
| H_show_current_directory | H_show_history
| H_show_help | H_show_command_help | H_exit_terminal | H_clear_screen.

Definition slot1 : regex := Grp (Plus CSlot).
Definition slot0 : regex := Grp (Star CSlot).
Definition kind : regex :=
  NGrp (Lit "file " ∥ Lit "directory " ∥ Lit "folder ").
Definition called : regex := NGrp (Lit " called" ∥ Lit " named").

(** [self.command_patterns], in the order of the source. *)
Definition command_patterns : list (regex * handler) := [
  (* File operations *)
  (Lit "create " ∙ Opt (NGrp (Lit "a ")) ∙ Opt (NGrp (Lit "new "))
     ∙ NGrp (Lit "directory" ∥ Lit "folder") ∙ Opt called ∙ Lit " " ∙ slot1,
   H_create_directory);
  (Lit "make " ∙ Opt (NGrp (Lit "a ")) ∙ Opt (NGrp (Lit "new "))
     ∙ NGrp (Lit "directory" ∥ Lit "folder") ∙ Opt called ∙ Lit " " ∙ slot1,
   H_create_directory);
  (Lit "create " ∙ Opt (NGrp (Lit "a ")) ∙ Opt (NGrp (Lit "new "))
     ∙ Opt (NGrp (Lit "empty ")) ∙ Lit "file" ∙ Opt called ∙ Lit " " ∙ slot1,
   H_create_file);
  (Lit "touch " ∙ Opt (NGrp (Lit "a ")) ∙ Opt (NGrp (Lit "new "))
     ∙ Lit "file" ∙ Opt called ∙ Lit " " ∙ slot1,
   H_create_file);
  (NGrp (Lit "show" ∥ Lit "list") ∙ Lit " " ∙ Opt (NGrp (Lit "the "))
     ∙ NGrp (Lit "files" ∥ Lit "contents")
     ∙ Opt (NGrp (Lit " in" ∥ Lit " of")) ∙ Opt (NGrp (Lit " the"))
     ∙ Opt (Lit " ") ∙ Opt (NGrp (Lit "directory" ∥ Lit "folder"))
     ∙ Opt (Lit " ") ∙ slot0,
   H_list_directory);
  (Lit "what " ∙ NGrp (Lit "files" ∥ Lit "directories") ∙ Lit " are "
     ∙ NGrp (Lit "in" ∥ Lit "inside") ∙ Opt (Lit " ") ∙ slot0,
   H_list_directory);
  (Lit "show " ∙ Opt (NGrp (Lit "me ")) ∙ Opt (NGrp (Lit "the "))
     ∙ Lit "content" ∙ Opt (NGrp (Lit "s")) ∙ Lit " of "
     ∙ Opt (NGrp (Lit "file ")) ∙ slot1,
   H_show_file_content);
  (NGrp (Lit "read" ∥ Lit "cat" ∥ Lit "display" ∥ Lit "print") ∙ Lit " "
     ∙ Opt (NGrp (Lit "file ")) ∙ slot1,
   H_show_file_content);
  (NGrp (Lit "delete" ∥ Lit "remove") ∙ Lit " " ∙ Opt kind ∙ slot1,
   H_remove_item);
  (Lit "move " ∙ Opt kind ∙ slot1 ∙ Lit " to "
     ∙ Opt (NGrp (Lit "directory " ∥ Lit "folder ")) ∙ slot1,
   H_move_item);
  (Lit "rename " ∙ Opt kind ∙ slot1 ∙ Lit " to " ∙ slot1,
   H_rename_item);
  (Lit "copy " ∙ Opt kind ∙ slot1 ∙ Lit " to "
     ∙ Opt (NGrp (Lit "directory " ∥ Lit "folder ")) ∙ slot1,
   H_copy_item);
  (Lit "change " ∙ Opt (NGrp (Lit "to "))
     ∙ NGrp (Lit "directory" ∥ Lit "folder" ∥ Lit "dir") ∙ Lit " " ∙ slot1,
   H_change_directory);
  (NGrp (Lit "go" ∥ Lit "navigate") ∙ Lit " to "
     ∙ Opt (NGrp (Lit "directory" ∥ Lit "folder" ∥ Lit "dir"))
     ∙ Opt (Lit " ") ∙ slot1,
   H_change_directory);
  (Lit "cd " ∙ Opt (NGrp (Lit "to ")) ∙ slot1,
   H_change_directory);
  (* System commands *)
  (NGrp (Lit "show" ∥ Lit "display" ∥ Lit "list") ∙ Lit " "
     ∙ Opt (NGrp (Lit "running ")) ∙ Lit "processes",
   H_list_processes);
  (NGrp (Lit "show" ∥ Lit "display") ∙ Lit " " ∙ Opt (NGrp (Lit "system "))
     ∙ Opt (NGrp (Lit "resource ")) ∙ Lit "usage",
   H_show_resource_usage);
  (NGrp (Lit "show" ∥ Lit "display") ∙ Lit " "
     ∙ NGrp (Lit "disk" ∥ Lit "storage") ∙ Lit " "
     ∙ NGrp (Lit "usage" ∥ Lit "space" ∥ Lit "info"),
   H_show_disk_usage);
  (NGrp (Lit "what" ∥ Lit "where") ∙ Lit " is " ∙ Opt (NGrp (Lit "my "))
     ∙ Lit "current " ∙ NGrp (Lit "directory" ∥ Lit "folder" ∥ Lit "location"),
   H_show_current_directory);
  (NGrp (Lit "show" ∥ Lit "display") ∙ Lit " " ∙ Opt (NGrp (Lit "command "))
     ∙ Lit "history",
   H_show_history);
  (* Help and exit *)
  (NGrp (Lit "show" ∥ Lit "list" ∥ Lit "display") ∙ Lit " "
     ∙ Opt (NGrp (Lit "available ")) ∙ Lit "commands",
   H_show_help);
  (NGrp (Lit "how to" ∥ Lit "help" ∥ Lit "help with") ∙ Lit " "
     ∙ Grp (Star CAny),
   H_show_command_help);
  (NGrp (Lit "exit" ∥ Lit "quit" ∥ Lit "close") ∙ Lit " "
     ∙ NGrp (Lit "terminal" ∥ Lit "program" ∥ Lit "application"),
   H_exit_terminal);
  (Lit "clear " ∙ Opt (NGrp (Lit "the "))
     ∙ NGrp (Lit "screen" ∥ Lit "terminal"),
   H_clear_screen)
]%re.

(** The pattern strings as they stand in the source. *)
Definition pattern_sources : list string := [
  "create (?:a )?(?:new )?(?:directory|folder)(?: called| named)? ([\w\s./\\-]+)";
  "make (?:a )?(?:new )?(?:directory|folder)(?: called| named)? ([\w\s./\\-]+)";
  "create (?:a )?(?:new )?(?:empty )?file(?: called| named)? ([\w\s./\\-]+)";
  "touch (?:a )?(?:new )?file(?: called| named)? ([\w\s./\\-]+)";
  "(?:show|list) (?:the )?(?:files|contents)(?: in| of)?(?: the)? ?(?:directory|folder)? ?([\w\s./\\-]*)";
  "what (?:files|directories) are (?:in|inside) ?([\w\s./\\-]*)";
  "show (?:me )?(?:the )?content(?:s)? of (?:file )?([\w\s./\\-]+)";
  "(?:read|cat|display|print) (?:file )?([\w\s./\\-]+)";
  "(?:delete|remove) (?:file |directory |folder )?([\w\s./\\-]+)";
  "move (?:file |directory |folder )?([\w\s./\\-]+) to (?:directory |folder )?([\w\s./\\-]+)";
  "rename (?:file |directory |folder )?([\w\s./\\-]+) to ([\w\s./\\-]+)";
  "copy (?:file |directory |folder )?([\w\s./\\-]+) to (?:directory |folder )?([\w\s./\\-]+)";
  "change (?:to )?(?:directory|folder|dir) ([\w\s./\\-]+)";
  "(?:go|navigate) to (?:directory|folder|dir)? ?([\w\s./\\-]+)";
  "cd (?:to )?([\w\s./\\-]+)";
  "(?:show|display|list) (?:running )?processes";
  "(?:show|display) (?:system )?(?:resource )?usage";
  "(?:show|display) (?:disk|storage) (?:usage|space|info)";
  "(?:what|where) is (?:my )?current (?:directory|folder|location)";
  "(?:show|display) (?:command )?history";
  "(?:show|list|display) (?:available )?commands";
  "(?:how to|help|help with) (.*)";
  "(?:exit|quit|close) (?:terminal|program|application)";
  "clear (?:the )?(?:screen|terminal)"
].

(** [self._show_examples()] *)
Definition examples : list string := [
  "create a new folder called Projects";
  "make a new directory named Backup";
  "create a new file called notes.txt";
  "show files in Downloads";
  "list contents of the current directory";
  "what files are in Documents";
  "show content of file.txt";
  "read config.ini";
  "delete file temp.txt";
  "remove directory OldStuff";
  "move file report.pdf to Documents";
  "rename file old.txt to new.txt";
  "copy file important.docx to Backup";
  "change to directory Projects";
  "go to Documents";
  "show running processes";
  "display system usage";
  "show disk space";
  "where is my current location";
  "show command history";
  "list available commands";
  "help with creating files";
  "clear the screen";
  "exit terminal"
].

Definition _show_examples : string :=
  "Natural Language Command Examples:" +:+ nl
  +:+ Py.join nl ((λ example, "  - " +:+ example) <$> examples).

Definition need_input : string :=
  "Please enter a natural language command. Type 'nlp help' for examples.".

Definition dont_understand (query : string) : string :=
  "I don't understand '" +:+ query
  +:+ "'. Type 'nlp help' for examples of commands I understand.".

(** The loop of [execute]: the first pattern that [re.search] finds in
    the query, with its handler and [match.groups()]. *)
Fixpoint first_match (patterns : list (regex * handler)) (query : string)
  : option (handler * list string) :=
  match patterns with
  | [] => None
  | (pattern, h) :: rest =>
      match search pattern query with
      | Some groups => Some (h, groups)
      | None => first_match rest query
      end
  end.

(** no pattern of [patterns] is found in [query] *)
Definition none_found (patterns : list (regex * handler)) (query : string)
  : bool :=
  forallb (λ ph, match search ph.1 query with
                 | None => true
                 | Some _ => false
                 end) patterns.

Section Handlers.
Context {W : Type} `{!OS W}.

(** [self.terminal.execute_command]: the terminal the command was
    constructed with. *)
Variable terminal_execute_command : string → M W string.

(** *** Delegating adapters *)
Definition _create_directory (directory_name : string) : M W string :=
  let directory_name := Py.strip directory_name in
  terminal_execute_command ("mkdir " +:+ Shlex.quote directory_name).

Definition _create_file (file_name : string) : M W string :=
  let file_name := Py.strip file_name in
  terminal_execute_command ("touch " +:+ Shlex.quote file_name).

Definition _list_directory (directory : string) : M W string :=
  let directory :=
    if Py.is_empty directory then "." else Py.strip directory in
  terminal_execute_command ("ls " +:+ Shlex.quote directory).

Definition _show_file_content (file_name : string) : M W string :=
  let file_name := Py.strip file_name in
  terminal_execute_command ("cat " +:+ Shlex.quote file_name).

Definition _remove_item (item_name : string) : M W string :=
  let item_name := Py.strip item_name in
  bind (os_query (os_path_isdir item_name)) (λ is_dir,
    if is_dir
    then terminal_execute_command ("rm -r " +:+ Shlex.quote item_name)
    else terminal_execute_command ("rm " +:+ Shlex.quote item_name)).

Definition _change_directory (directory : string) : M W string :=
  let directory := Py.strip directory in
  terminal_execute_command ("cd " +:+ Shlex.quote directory).

Definition _list_processes : M W string := terminal_execute_command "ps".
Definition _show_resource_usage : M W string :=
  terminal_execute_command "top".
Definition _show_disk_usage : M W string :=
  terminal_execute_command "df -h".
Definition _show_current_directory : M W string :=
  terminal_execute_command "pwd".
Definition _show_history : M W string :=
  terminal_execute_command "history".
Definition _show_help : M W string := terminal_execute_command "help".
Definition _exit_terminal : M W string := terminal_execute_command "exit".
Definition _clear_screen : M W string := terminal_execute_command "clear".

Definition _show_command_help (command : string) : M W string :=
  let command := Py.strip command in
  match search (Grp (Plus CWord)) command with
  | Some [cmd] => terminal_execute_command ("help " +:+ cmd)
  | _ => terminal_execute_command "help"
  end.

(** *** Direct adapters *)

(** the final path of a move: into [destination] when it is an
    existing directory, [destination] itself otherwise *)
Definition move_dest_path (source destination : string) (w : W)
  : string :=
  if os_path_isdir destination w
  then PosixPath.join destination (PosixPath.basename source)
  else destination.

Definition _move_item (source destination : string) : M W string :=
  let source := Py.strip source in
  let destination := Py.strip destination in
  bind (os_query (move_dest_path source destination)) (λ dest_path,
    try_except
      (bind (os_call (shutil_move source dest_path)) (λ _,
         ret ("Moved " +:+ source +:+ " to " +:+ destination)))
      (λ e, ret ("Error moving " +:+ source +:+ " to " +:+ destination
                 +:+ ": " +:+ exn_str e))).

Definition _rename_item (old_name new_name : string) : M W string :=
  let old_name := Py.strip old_name in
  let new_name := Py.strip new_name in
  try_except
    (bind (os_call (os_rename old_name new_name)) (λ _,
       ret ("Renamed " +:+ old_name +:+ " to " +:+ new_name)))
    (λ e, ret ("Error renaming " +:+ old_name +:+ " to " +:+ new_name
               +:+ ": " +:+ exn_str e)).

Definition _copy_item (source destination : string) : M W string :=
  let source := Py.strip source in
  let destination := Py.strip destination in
  try_except
    (bind (os_query (os_path_isdir source)) (λ src_is_dir,
       bind
         (if src_is_dir
          then
            bind (os_query (os_path_exists destination)) (λ dst_exists,
              let dest_path :=
                if dst_exists
                then PosixPath.join destination (PosixPath.basename source)
                else destination in
              os_call (shutil_copytree source dest_path))
          else
            bind (os_query (os_path_isdir destination)) (λ dst_is_dir,
              let dest_path :=
                if dst_is_dir
                then PosixPath.join destination (PosixPath.basename source)
                else destination in
              os_call (shutil_copy2 source dest_path)))
         (λ _, ret ("Copied " +:+ source +:+ " to " +:+ destination))))
    (λ e, ret ("Error copying " +:+ source +:+ " to " +:+ destination
               +:+ ": " +:+ exn_str e)).

(** [handler( *match.groups())]: a call with the wrong number of
    arguments raises [TypeError]. *)
Definition arity_error : exn :=
  Exn TypeError "wrong number of positional arguments".

Definition call (h : handler) (groups : list string) : M W string :=
  match h, groups with
  | H_create_directory, [a] => _create_directory a
  | H_create_file, [a] => _create_file a
  | H_list_directory, [] => _list_directory ""
  | H_list_directory, [a] => _list_directory a
  | H_show_file_content, [a] => _show_file_content a
  | H_remove_item, [a] => _remove_item a
  | H_move_item, [a; b] => _move_item a b
  | H_rename_item, [a; b] => _rename_item a b
  | H_copy_item, [a; b] => _copy_item a b
  | H_change_directory, [a] => _change_directory a
  | H_list_processes, [] => _list_processes
  | H_show_resource_usage, [] => _show_resource_usage
  | H_show_disk_usage, [] => _show_disk_usage
  | H_show_current_directory, [] => _show_current_directory
  | H_show_history, [] => _show_history
  | H_show_help, [] => _show_help
  | H_show_command_help, [a] => _show_command_help a
  | H_exit_terminal, [] => _exit_terminal
  | H_clear_screen, [] => _clear_screen
  | _, _ => raise arity_error
  end.

(** [NLPCommand.execute] *)
Definition execute (args : list string) : M W string :=
  let query := Py.join " " args in
  if Py.is_empty query then ret need_input
  else if Py.str_in (Py.lower query) ["help"; "examples"]
  then ret _show_examples
  else match first_match command_patterns query with
       | Some (h, groups) => call h groups
       | None => ret (dont_understand query)
       end.

Definition NLPCommand : Command W :=
  mkCommand "nlp" "Process natural language commands" execute.

End Handlers.

(** *** [AITerminal] *)
Section AITerminal.
Context {W : Type} `{!OS W}.

(** [AutoCompleteCommand] keeps its switch in the command object; its
    [execute] is left to the operating system like the other commands
    that are not embedded. *)
Definition AutoCompleteCommand : Command W :=
  builtin "autocomplete" "Toggle auto-completion functionality".

(** The registry after [AITerminal.__init__], for a natural-language
    command constructed with [terminal_execute_command]. *)
Definition ai_commands (terminal_execute_command : string → M W string)
  : gmap string (Command W) :=
  register_command AutoCompleteCommand
    (register_command (NLPCommand terminal_execute_command)
       register_commands).

(** The handlers only compose lines whose command is one of
    [Terminal]'s own, so the terminal the natural-language command calls
    back is the dispatcher over [register_commands]. *)
Definition ai_execute_command : string → M W string :=
  execute_command (ai_commands (execute_command register_commands)).

End AITerminal.

End NLP.

(** ** A small world to run the terminal in *)
Module Sim.
Import Term.

(** The directories and files that exist, and the calls made so far,
    oldest first. *)
Record world : Type := mkWorld {
  dirs : list string;
  files : list string;
  calls : list (string * list string);
}.

Definition log (f : string) (args : list string) (w : world) : world :=
  mkWorld (dirs w) (files w) (calls w ++ [(f, args)]).

Definition isdir (p : string) (w : world) : bool := Py.str_in p (dirs w).
Definition exists_ (p : string) (w : world) : bool :=
  Py.str_in p (dirs w) || Py.str_in p (files w).

Definition rename_in (a b : string) (l : list string) : list string :=
  (λ x, if String.eqb x a then b else x) <$> l.

Definition remove_in (a : string) (l : list string) : list string :=
  filter (λ x, x ≠ a) l.

Definition no_such (p : string) : exn :=
  Exn FileNotFoundError ("[Errno 2] No such file or directory: '" +:+ p +:+ "'").
Definition file_exists (p : string) : exn :=
  Exn FileExistsError ("[Errno 17] File exists: '" +:+ p +:+ "'").
Definition not_a_dir (p : string) : exn :=
  Exn NotADirectoryError ("[Errno 20] Not a directory: '" +:+ p +:+ "'").
Definition is_a_dir (p : string) : exn :=
  Exn IsADirectoryError ("[Errno 21] Is a directory: '" +:+ p +:+ "'").

Definition mkdir (p : string) (w : world) : option exn * world :=
  let w := log "os.mkdir" [p] w in
  if exists_ p w then (Some (file_exists p), w)
  else (None, mkWorld (dirs w ++ [p]) (files w) (calls w)).

Definition makedirs (p : string) (w : world) : option exn * world :=
  let w := log "os.makedirs" [p] w in
  if isdir p w then (None, w)
  else if exists_ p w then (Some (file_exists p), w)
  else (None, mkWorld (dirs w ++ [p]) (files w) (calls w)).

Definition remove (p : string) (w : world) : option exn * world :=
  let w := log "os.remove" [p] w in
  if isdir p w then (Some (is_a_dir p), w)
  else if exists_ p w
  then (None, mkWorld (dirs w) (remove_in p (files w)) (calls w))
  else (Some (no_such p), w).

Definition rmtree (p : string) (w : world) : option exn * world :=
  let w := log "shutil.rmtree" [p] w in
  if isdir p w
  then (None, mkWorld (remove_in p (dirs w)) (files w) (calls w))
  else if exists_ p w then (Some (not_a_dir p), w)
  else (Some (no_such p), w).

Definition rename (f : string) (a b : string) (w : world)
  : option exn * world :=
  let w := log f [a; b] w in
  if exists_ a w
  then (None, mkWorld (rename_in a b (dirs w)) (rename_in a b (files w))
                      (calls w))
  else (Some (no_such a), w).

Definition copytree (a b : string) (w : world) : option exn * world :=
  let w := log "shutil.copytree" [a; b] w in
  if isdir a w
  then if exists_ b w then (Some (file_exists b), w)
       else (None, mkWorld (dirs w ++ [b]) (files w) (calls w))
  else if exists_ a w then (Some (not_a_dir a), w)
  else (Some (no_such a), w).

Definition copy2 (a b : string) (w : world) : option exn * world :=
  let w := log "shutil.copy2" [a; b] w in
  if isdir a w then (Some (is_a_dir a), w)
  else if exists_ a w
  then (None, mkWorld (dirs w) (files w ++ [b]) (calls w))
  else (Some (no_such a), w).

#[export] Instance sim_os : OS world := {|
  os_getcwd := λ _, "/home/user";
  os_path_isdir := isdir;
  os_path_exists := exists_;
  os_mkdir := mkdir;
  os_makedirs := makedirs;
  os_remove := remove;
  os_rename := rename "os.rename";
  shutil_rmtree := rmtree;
  shutil_move := rename "shutil.move";
  shutil_copytree := copytree;
  shutil_copy2 := copy2;
  builtin_execute := λ n args _ w, (Ok "", log n args w);
|}.

(** A home directory with a folder [Documents] and a file
    [report.pdf]. *)
Definition w0 : world := mkWorld ["Documents"] ["report.pdf"] [].

(** The same without the folder. *)
Definition w1 : world := mkWorld [] ["report.pdf"] [].

Definition st0 : St world := init w0.
Definition st1 : St world := init w1.

(** The terminal of [Terminal()]. *)
Definition terminal : string → M world string :=
  execute_command register_commands.

End Sim.

(** ** [terminal.py]: the history listing, the prompt and the main loop *)
Module Shell.
Import Term.

(** [str.isdigit] on one character: the decimal digits and the
    superscripts one, two and three. *)
Definition isdigit_char (c : ascii) : bool :=
  Py.between 48 57 c || (Py.code c =? 178) || (Py.code c =? 179)
  || (Py.code c =? 185).

Fixpoint all_digits (s : string) : bool :=
  match s with
  | EmptyString => true
  | String c s' => isdigit_char c && all_digits s'
  end.

(** [s.isdigit()] *)
Definition isdigit (s : string) : bool := negb (Py.is_empty s) && all_digits s.

(** the value of a string of decimal digits read after [acc]; [None] at a
    character that is no decimal digit *)
Fixpoint decimal (acc : N) (s : string) : option N :=
  match s with
  | EmptyString => Some acc
  | String c s' =>
      if Py.between 48 57 c then decimal (10 * acc + (Py.code c - 48)) s'
      else None
  end.

(** [int(s)] for a string that [isdigit] accepts; [None] is [ValueError]:
    a superscript digit is no literal, and CPython refuses more than 4300
    digits. *)
Definition int (s : string) : option N :=
  if (4300 <? String.length s)%nat then None else decimal 0 s.

Fixpoint spaces (n : nat) : string :=
  match n with
  | O => EmptyString
  | S n' => String " " (spaces n')
  end.

(** the format [{i:4d}] *)
Definition fmt4 (i : nat) : string :=
  let d := NilZero.string_of_uint (Nat.to_uint i) in
  spaces (4 - String.length d) +:+ d.

(** [history[-count:]] *)
Definition last_entries (count : N) (history : list string) : list string :=
  if count =? 0 then history
  else drop (length history - N.to_nat count) history.

(** the numbered lines, counted from one *)
Definition numbered (entries : list string) : list string :=
  imap (λ i cmd, fmt4 (S i) +:+ "  " +:+ cmd) entries.

Inductive listing : Type :=
| Text (s : string)
| ValueError.

(** [HistoryCommand.execute], reading [terminal.command_history] *)
Definition HistoryCommand_execute (args : list string)
    (command_history : list string) : listing :=
  match args with
  | a :: _ =>
      if isdigit a
      then match int a with
           | Some count =>
               Text (Py.join nl (numbered (last_entries count command_history)))
           | None => ValueError
           end
      else Text (Py.join nl (numbered command_history))
  | [] => Text (Py.join nl (numbered command_history))
  end.

(** [cwd[len(home):]] *)
Definition after (n : nat) (s : string) : string :=
  String.substring n (String.length s - n) s.

(** [Terminal.get_prompt]; [username] is [os.environ.get("USER", "user")],
    [hostname] is [platform.node()], [home] is [os.path.expanduser("~")]
    and [cwd] is [os.getcwd()]. *)
Definition get_prompt (username hostname home cwd : string) : string :=
  let cwd :=
    if Py.startswith cwd home then "~" +:+ after (String.length home) cwd
    else cwd in
  username +:+ "@" +:+ hostname +:+ ":" +:+ cwd +:+ "$ ".

(** What [input] delivers at one turn of the loop. *)
Inductive input_event : Type :=
| Line (user_input : string)
| KeyboardInterrupt
| EOFError.

(** What the loop writes: the prompt of [input], a [print], and the
    clearing of the screen by [os.system]. *)
Inductive output_event : Type :=
| Prompt (prompt : string)
| Print (text : string)
| ClearScreen.

Section Run.
Context {W : Type} `{!OS W}.
Variables username hostname home : string.
Variable commands : gmap string (Command W).

Definition set_running (b : bool) (st : St W) : St W :=
  mkSt (command_history st) b (current_dir st) (world st).

(** One turn of the [while] loop of [Terminal.run]. *)
Definition turn (ev : input_event) (st : St W)
  : list output_event * St W :=
  let prompt :=
    Prompt (get_prompt username hostname home (os_getcwd (world st))) in
  match ev with
  | Line user_input =>
      match execute_command commands user_input st with
      | (Ok output, st') =>
          if String.eqb output "__EXIT__"
          then ([prompt; Print "Goodbye!"], set_running false st')
          else if String.eqb output "__CLEAR__"
          then ([prompt; ClearScreen], st')
          else if Py.is_empty output then ([prompt], st')
          else ([prompt; Print output], st')
      | (Raise e, st') => ([prompt; Print ("Error: " +:+ exn_str e)], st')
      end
  | KeyboardInterrupt =>
      ([prompt; Print (nl +:+ "Use 'exit' to quit the terminal.")], st)
  | EOFError => ([prompt; Print (nl +:+ "Goodbye!")], set_running false st)
  end.

(** The loop on the inputs that arrive; it waits when they run out. *)
Fixpoint loop (inputs : list input_event) (st : St W)
  : list output_event * St W :=
  if running st
  then match inputs with
       | [] => ([], st)
       | ev :: rest =>
           let '(out, st') := turn ev st in
           let '(out', st'') := loop rest st' in
           (out ++ out', st'')
       end
  else ([], st).

(** [Terminal.run] *)
Definition run (inputs : list input_event) (st : St W)
  : list output_event * St W :=
  let '(out, st') := loop inputs st in
  ([Print "Python Terminal v1.0";
    Print "Type 'help' for a list of commands, 'exit' to quit."] ++ out, st').

(** the lines among the inputs *)
Definition lines (inputs : list input_event) : list string :=
  omap (λ ev, match ev with Line l => Some l | _ => None end) inputs.

End Run.

End Shell.

(** ** [ai_terminal.py]: the completion switch and the handlers' arities *)
Module Assist.
Import Re NLP.

(** [AutoCompleteCommand.execute], on the field [enabled] *)
Definition AutoCompleteCommand_execute (args : list string) (enabled : bool)
  : string * bool :=
  match args with
  | [] =>
      let enabled := negb enabled in
      ("Auto-completion is now "
       +:+ (if enabled then "enabled" else "disabled"), enabled)
  | a :: _ =>
      if Py.str_in (Py.lower a) ["on"; "enable"; "true"; "1"]
      then ("Auto-completion is now enabled", true)
      else if Py.str_in (Py.lower a) ["off"; "disable"; "false"; "0"]
      then ("Auto-completion is now disabled", false)
      else ("Invalid argument. Use 'on' or 'off'.", enabled)
  end.

(** The numbers of positional arguments a handler takes, from its
    signature; [_list_directory] has a default for its one parameter. *)
Definition accepts (h : handler) (n : nat) : bool :=
  match h with
  | H_list_directory => (n =? 0)%nat || (n =? 1)%nat
  | H_create_directory | H_create_file | H_show_file_content
  | H_remove_item | H_change_directory | H_show_command_help => (n =? 1)%nat
  | H_move_item | H_rename_item | H_copy_item => (n =? 2)%nat
  | H_list_processes | H_show_resource_usage | H_show_disk_usage
  | H_show_current_directory | H_show_history | H_show_help
  | H_exit_terminal | H_clear_screen => (n =? 0)%nat
  end.

(** The number of groups of a pattern whose every match closes the same
    groups: no group under [?], and as many in each alternative. *)
Fixpoint group_count (r : regex) : option nat :=
  match r with
  | Lit _ | Star _ | Plus _ => Some O
  | Seq r1 r2 =>
      match group_count r1, group_count r2 with
      | Some a, Some b => Some (a + b)%nat
      | _, _ => None
      end
  | Alt r1 r2 =>
      match group_count r1, group_count r2 with
      | Some a, Some b => if (a =? b)%nat then Some a else None
      | _, _ => None
      end
  | Opt r1 =>
      match group_count r1 with
      | Some O => Some O
      | _ => None
      end
  | NGrp r1 => group_count r1
  | Grp r1 =>
      match group_count r1 with
      | Some a => Some (S a)
      | None => None
      end
  end.

End Assist.

(** ** [web_terminal.py]: the [/execute] route *)
Module Web.
Import Term.

(** The answer of the route: the JSON object, or the exception that
    leaves it. *)
Inductive reply : Type :=
| Json (output prompt : string)
| IndexError
| Propagated (e : exn).

Section Route.
Context {W : Type} `{!OS W}.
Variables username hostname home : string.

(** [terminal.commands] and [terminal.execute_command] of the module's
    terminal *)
Variable commands : gmap string (Command W).

(** The command handed to the terminal: a text whose first word is no
    registered command and that does not start with [nlp ] gets that
    prefix. [None] is the [IndexError] of [command.split()[0]]. *)
Definition routed (command : string) : option string :=
  if Py.is_empty command then Some command
  else match Py.split command with
       | [] => None
       | first :: _ =>
           if negb (bool_decide (is_Some (commands !! first)))
              && negb (Py.startswith command "nlp ")
           then Some ("nlp " +:+ command)
           else Some command
       end.

(** [execute_command] of the route, for the posted [command] *)
Definition execute_command (command : string) (st : St W) : reply * St W :=
  match routed command with
  | None => (IndexError, st)
  | Some command =>
      match Term.execute_command commands command st with
      | (Ok output, st') =>
          let prompt :=
            Shell.get_prompt username hostname home (os_getcwd (world st')) in
          if String.eqb output "__EXIT__"
          then (Json "Terminal session ended. Refresh the page to start a new session." "",
                st')
          else if String.eqb output "__CLEAR__" then (Json "" prompt, st')
          else (Json output prompt, st')
      | (Raise e, st') => (Propagated e, st')
      end
  end.

End Route.

End Web.

(** ** A world that cannot be written *)
Module ReadOnly.
Import Term.

Definition refused : exn := Exn OSError "[Errno 30] Read-only file system".

(** The queries of [Sim]; every operation that writes is refused. *)
Definition readonly_os : OS Sim.world := {|
  os_getcwd := λ _, "/home/user";
  os_path_isdir := Sim.isdir;
  os_path_exists := Sim.exists_;
  os_mkdir := λ _ w, (Some refused, w);
  os_makedirs := λ _ w, (Some refused, w);
  os_remove := λ _ w, (Some refused, w);
  os_rename := λ _ _ w, (Some refused, w);
  shutil_rmtree := λ _ w, (Some refused, w);
  shutil_move := λ _ _ w, (Some refused, w);
  shutil_copytree := λ _ _ w, (Some refused, w);
  shutil_copy2 := λ _ _ w, (Some refused, w);
  builtin_execute := λ n args _ w, (Ok "", w);
|}.

End ReadOnly.

(** ** [LsCommand] and the completions of [AutoCompleteCommand] *)
Module Listing.
Import Term.

(** What the two read of a directory, over a world [W]: [os.listdir], and
    of [os.stat] the size and the modification time as
    [strftime("%b %d %H:%M")] renders it. *)
Class Dir (W : Type) : Type := {
  os_listdir : string → W → result (list string);
  os_stat : string → W → result (N * string);
}.

(** [os.path.dirname] *)
Definition head_of (p : string) : string :=
  String.substring 0
    (String.length p - String.length (PosixPath.basename p)) p.

Fixpoint all_sep (s : string) : bool :=
  match s with
  | EmptyString => true
  | String c s' => Ascii.eqb c PosixPath.sep && all_sep s'
  end.

(** [head.rstrip('/')] *)
Fixpoint rstrip_sep (s : string) : string :=
  match s with
  | EmptyString => EmptyString
  | String c s' =>
      let r := rstrip_sep s' in
      if Py.is_empty r && Ascii.eqb c PosixPath.sep then EmptyString
      else String c r
  end.

Definition dirname (p : string) : string :=
  let head := head_of p in
  if negb (Py.is_empty head) && negb (all_sep head) then rstrip_sep head
  else head.

(** [" " in text] *)
Fixpoint has_blank (text : string) : bool :=
  match text with
  | EmptyString => false
  | String c text' => Ascii.eqb c " " || has_blank text'
  end.

(** the format [{size:8d}] *)
Definition fmt8 (size : N) : string :=
  let d := NilZero.string_of_uint (N.to_uint size) in
  Shell.spaces (8 - String.length d) +:+ d.

Section Ls.
Context {W : Type} `{!OS W} `{!Dir W}.

Definition hidden (item : string) : bool := Py.startswith item ".".

(** the first argument that is no option, the current directory without
    one *)
Definition target (args : list string) : string :=
  match filter (λ a, Py.startswith a "-" = false) args with
  | a :: _ => a
  | [] => "."
  end.

Definition is_dir_in (target_dir : string) (w : W) (item : string) : bool :=
  os_path_isdir (PosixPath.join target_dir item) w.

(** directories first, then files, each group sorted *)
Definition sorted_items (target_dir : string) (w : W) (items : list string)
  : list string :=
  merge_sort String.le (filter (λ i, is_dir_in target_dir w i = true) items)
  ++ merge_sort String.le
       (filter (λ i, is_dir_in target_dir w i = false) items).

(** the lines of the long format; [os.stat] may raise *)
Fixpoint long_lines (target_dir : string) (w : W) (items : list string)
  : result (list string) :=
  match items with
  | [] => Ok []
  | item :: rest =>
      let full_path := PosixPath.join target_dir item in
      match os_stat full_path w with
      | Raise e => Raise e
      | Ok (size, mod_time) =>
          let line :=
            (if os_path_isdir full_path w then "d" else "-") +:+ " "
            +:+ fmt8 size +:+ " " +:+ mod_time +:+ " " +:+ item
            +:+ (if os_path_isdir full_path w then "/" else "") in
          match long_lines target_dir w rest with
          | Raise e => Raise e
          | Ok lines => Ok (line :: lines)
          end
      end
  end.

(** the body of the [try] of [LsCommand.execute] *)
Definition listing (args : list string) (w : W) : result string :=
  let show_hidden := Py.str_in "-a" args || Py.str_in "--all" args in
  let long_format := Py.str_in "-l" args in
  let target_dir := target args in
  match os_listdir target_dir w with
  | Raise e => Raise e
  | Ok items =>
      let items :=
        if show_hidden then items
        else filter (λ item, hidden item = false) items in
      let sorted := sorted_items target_dir w items in
      if long_format
      then match long_lines target_dir w sorted with
           | Raise e => Raise e
           | Ok lines => Ok (Py.join nl lines)
           end
      else Ok (Py.join "  "
                 ((λ item, if is_dir_in target_dir w item
                           then item +:+ "/" else item) <$> sorted))
  end.

(** [LsCommand.execute] *)
Definition LsCommand_execute (args : list string) (w : W) : result string :=
  match listing args w with
  | Ok text => Ok text
  | Raise e =>
      match exn_cls e with
      | FileNotFoundError =>
          Ok ("ls: cannot access '" +:+ target args
              +:+ "': No such file or directory")
      | PermissionError =>
          Ok ("ls: cannot open directory '" +:+ target args
              +:+ "': Permission denied")
      | _ => Raise e
      end
  end.

(** [AutoCompleteCommand.get_completions]; [names] is
    [terminal.commands.keys()], in the order of registration. A text that
    is not blank has a first word, so the empty list of words does not
    occur. *)
Definition get_completions (names : list string) (enabled : bool)
    (text : string) (w : W) : result (list string) :=
  if negb enabled then Ok []
  else if Py.is_empty (Py.strip text) || negb (has_blank text)
  then Ok (filter (λ cmd, Py.startswith cmd text = true) names)
  else match Py.split text with
       | [] => Ok []
       | cmd :: rest =>
           if Py.str_in cmd ["cd"; "ls"; "cat"; "rm"; "mkdir"; "touch"]
           then
             let partial_path := default "" (last rest) in
             let '(dir_to_check, partial_name) :=
               if os_path_isdir partial_path w then (partial_path, "")
               else ((if Py.is_empty (dirname partial_path) then "."
                      else dirname partial_path),
                     PosixPath.basename partial_path) in
             match os_listdir dir_to_check w with
             | Ok items =>
                 let matches :=
                   filter (λ item, Py.startswith item partial_name = true)
                     items in
                 if String.eqb dir_to_check "." then Ok matches
                 else Ok (PosixPath.join (dirname partial_path) <$> matches)
             | Raise e =>
                 match exn_cls e with
                 | FileNotFoundError | NotADirectoryError => Ok []
                 | _ => Raise e
                 end
             end
           else Ok []
       end.

End Ls.

(** Directories of the small world: the entries of [p] are the paths
    one level below it. *)
Definition child (p q : string) : option string :=
  if Py.startswith q (p +:+ "/")
  then let name := Shell.after (String.length p + 1) q in
       if Py.is_empty name || negb (String.eqb (PosixPath.basename name) name)
       then None else Some name
  else None.

#[export] Instance sim_dir : Dir Sim.world := {|
  os_listdir := λ p w,
    if Sim.isdir p w then Ok (omap (child p) (Sim.dirs w ++ Sim.files w))
    else if Sim.exists_ p w then Raise (Sim.not_a_dir p)
    else Raise (Sim.no_such p);
  os_stat := λ p w,
    if Sim.exists_ p w then Ok (0, "Jan 01 00:00") else Raise (Sim.no_such p);
|}.

(** A folder with a sub-folder, two files and a hidden file. *)
Definition w2 : Sim.world :=
  Sim.mkWorld ["Documents"; "Documents/old"]
    ["Documents/b.txt"; "Documents/.profile"; "Documents/a.txt"; "report.pdf"]
    [].

End Listing.

(** * Properties *)

Import Term NLP.
#[local] Existing Instance Sim.sim_os.

(** ** Strings *)

Lemma is_empty_true (s : string) : Py.is_empty s = true → s = "".
Proof. by destruct s. Qed.

Lemma is_empty_false (s : string) : Py.is_empty s = false → s ≠ "".
Proof. by destruct s. Qed.

Lemma lstrip_all_space (s : string) :
  Py.all_space (Py.lstrip s) = Py.all_space s.
Proof.
  induction s as [|c s IH]; [done|].
  cbn [Py.lstrip Py.all_space].
  destruct (Py.isspace c) eqn:Hc; [done|].
  cbn [Py.all_space]. by rewrite Hc.
Qed.

Lemma rstrip_is_empty (s : string) :
  Py.is_empty (Py.rstrip s) = Py.all_space s.
Proof.
  induction s as [|c s IH]; [done|].
  cbn [Py.rstrip Py.all_space]. rewrite IH.
  by destruct (Py.all_space s), (Py.isspace c).
Qed.

(** [not line.strip()] holds exactly of the lines without a
    non-whitespace character. *)
Lemma strip_is_empty (s : string) :
  Py.is_empty (Py.strip s) = Py.all_space s.
Proof. unfold Py.strip. by rewrite rstrip_is_empty, lstrip_all_space. Qed.

Lemma rstrip_all_space (s : string) :
  Py.all_space s = true → Py.rstrip s = "".
Proof. intros Hs. apply is_empty_true. by rewrite rstrip_is_empty. Qed.

Lemma split_go_all_space (s : string) :
  Py.all_space s = true → Py.split_go None s = [].
Proof.
  induction s as [|c s IH]; [done|].
  cbn [Py.all_space Py.split_go]. intros [Hc Hs]%andb_prop.
  rewrite Hc. by rewrite IH.
Qed.

(** A line [nlp] followed by whitespace only carries no argument. *)
Lemma parse_nlp_blank (ws : string) :
  Py.all_space ws = true → parse_command ("nlp " +:+ ws) = ("nlp", []).
Proof.
  intros Hws. unfold parse_command, Py.strip.
  change ("nlp " +:+ ws) with
    (String "n" (String "l" (String "p" (String " " ws)))).
  cbn [Py.lstrip].
  change (Py.isspace "n") with false. cbn iota.
  cbn [Py.rstrip]. rewrite (rstrip_all_space ws Hws).
  reflexivity.
Qed.

(** ** The matcher on blank input *)

Lemma lower_char_space (c : ascii) :
  Py.isspace (Py.lower_char c) = Py.isspace c.
Proof. by destruct c as [[] [] [] [] [] [] [] []]. Qed.

Lemma eq_ci_space (a b : ascii) :
  Re.eq_ci a b = true → Py.isspace a = Py.isspace b.
Proof.
  unfold Re.eq_ci. intros H%Ascii.eqb_eq.
  by rewrite <- (lower_char_space a), <- (lower_char_space b), H.
Qed.

(** Literal text found in blank input is blank, and so is the rest. *)
Lemma lit_blank (p s s' : string) :
  Py.all_space s = true → Re.lit p s = Some s' →
  Py.all_space p = true ∧ Py.all_space s' = true.
Proof.
  revert s. induction p as [|a p IH]; intros s Hs Hl.
  - cbn in Hl. by simplify_eq.
  - destruct s as [|b s]; [done|]. cbn [Re.lit] in Hl.
    destruct (Re.eq_ci a b) eqn:Hab; [|done].
    cbn [Py.all_space] in Hs. apply andb_prop in Hs as [Hb Hs].
    destruct (IH s Hs Hl) as [Hp Hs']. split; [|done].
    cbn [Py.all_space]. by rewrite (eq_ci_space a b Hab), Hb, Hp.
Qed.

Section Blank.
Context {R : Type}.

Lemma rep_blank (f : ascii → bool) (s : string) (k : string → option R) :
  Py.all_space s = true →
  (∀ s', Py.all_space s' = true → k s' = None) →
  Re.rep f s k = None.
Proof.
  intros Hs Hk. induction s as [|c s IH]; cbn [Re.rep].
  - by apply Hk.
  - pose proof Hs as Hs0.
    cbn [Py.all_space] in Hs. apply andb_prop in Hs as [_ Hs].
    destruct (f c); [rewrite (IH Hs)|]; by apply Hk.
Qed.

(** On blank input a pattern fails when it needs a character that is
    not whitespace, or when what follows it fails on blank input. *)
Lemma m_blank (r : Re.regex) :
  ∀ (s : string) (caps : list string)
    (k : string → list string → option R),
    Py.all_space s = true →
    Re.needs_ink r = true
    ∨ (∀ s' caps', Py.all_space s' = true → k s' caps' = None) →
    Re.m r s caps k = None.
Proof.
  induction r as [p|r1 IH1 r2 IH2|r1 IH1 r2 IH2|r1 IH1|c|c|r1 IH1|r1 IH1];
    intros s caps k Hs Hor; cbn [Re.m Re.needs_ink] in *.
  - destruct (Re.lit p s) as [s'|] eqn:Hl; [|done].
    destruct (lit_blank p s s' Hs Hl) as [Hp Hs'].
    destruct Hor as [Hn|Hk]; [by rewrite Hp in Hn|by apply Hk].
  - apply IH1; [done|].
    destruct (Re.needs_ink r1); [by left|right].
    intros s' caps' Hs'. apply IH2; [done|].
    destruct Hor as [Hn|Hk]; [by left|by right].
  - rewrite IH1, IH2; [done|done| |done|].
    + destruct Hor as [[_ ?]%andb_prop|?]; [by left|by right].
    + destruct Hor as [[? _]%andb_prop|?]; [by left|by right].
  - destruct Hor as [?|Hk]; [done|].
    rewrite IH1; [by apply Hk|done|by right].
  - destruct Hor as [?|Hk]; [done|].
    apply rep_blank; [done|]. intros s' Hs'. by apply Hk.
  - destruct Hor as [?|Hk]; [done|].
    destruct s as [|a s]; [done|].
    cbn [Py.all_space] in Hs. apply andb_prop in Hs as [_ Hs].
    destruct (Re.in_class c a); [|done].
    apply rep_blank; [done|]. intros s' Hs'. by apply Hk.
  - by apply IH1.
  - apply IH1; [done|].
    destruct Hor as [?|Hk]; [by left|right].
    intros s' caps' Hs'. by apply Hk.
Qed.
End Blank.

Lemma search_blank (r : Re.regex) (s : string) :
  Re.needs_ink r = true → Py.all_space s = true → Re.search r s = None.
Proof.
  intros Hr. induction s as [|c s IH]; intros Hs; cbn [Re.search];
    unfold Re.match_here; rewrite (m_blank r _ _ _ Hs (or_introl Hr)).
  - done.
  - cbn [Py.all_space] in Hs. apply andb_prop in Hs as [_ Hs]. by apply IH.
Qed.

Lemma command_patterns_need_ink :
  Forall (λ ph, Re.needs_ink ph.1 = true) command_patterns.
Proof. repeat constructor. Qed.

Lemma first_match_none (patterns : list (Re.regex * handler)) (q : string) :
  Forall (λ ph, Re.search ph.1 q = None) patterns →
  first_match patterns q = None.
Proof.
  induction 1 as [|[p h] rest Hp _ IH]; [done|].
  cbn [first_match]. cbn in Hp. by rewrite Hp.
Qed.

Lemma none_found_Forall (patterns : list (Re.regex * handler)) (q : string) :
  none_found patterns q = true →
  Forall (λ ph, Re.search ph.1 q = None) patterns.
Proof.
  unfold none_found.
  induction patterns as [|ph ps IH]; cbn [forallb]; [constructor|].
  intros [H1 H2]%andb_prop. constructor; [|by apply IH].
  by destruct (Re.search ph.1 q).
Qed.

(** No pattern of the table is found in a blank query. *)
Lemma first_match_blank (q : string) :
  Py.all_space q = true → first_match command_patterns q = None.
Proof.
  intros Hq. apply first_match_none.
  eapply Forall_impl; [apply command_patterns_need_ink|].
  intros [p h] Hp. by apply search_blank.
Qed.

(** ** The resolution engine *)

Lemma first_match_first (pre post : list (Re.regex * handler))
    (p : Re.regex) (h : handler) (groups : list string) (q : string) :
  Forall (λ ph, Re.search ph.1 q = None) pre →
  Re.search p q = Some groups →
  first_match (pre ++ (p, h) :: post) q = Some (h, groups).
Proof.
  intros Hpre Hp. induction Hpre as [|[p' h'] pre Hp' _ IH]; cbn [app first_match].
  - by rewrite Hp.
  - cbn in Hp'. by rewrite Hp'.
Qed.

(** The order of the table decides: the query below is found by the
    listing pattern and by the file-content pattern, and the table read
    backwards resolves it to the other handler. *)
Lemma order_is_load_bearing :
  first_match command_patterns "show contents of notes.txt"
    = Some (H_list_directory, ["notes.txt"])
  ∧ first_match (reverse command_patterns) "show contents of notes.txt"
    = Some (H_show_file_content, ["notes.txt"]).
Proof. split; vm_compute; reflexivity. Qed.

(** The groups of a match come in the order they stand in the query. *)
Lemma groups_left_to_right :
  first_match command_patterns "move a.txt to b.txt"
    = Some (H_move_item, ["a.txt"; "b.txt"]).
Proof. vm_compute; reflexivity. Qed.

(** The table is the one of the source, pattern by pattern. *)
Lemma command_patterns_source :
  (Re.show ∘ fst) <$> command_patterns = pattern_sources
  ∧ forallb (Re.wf ∘ fst) command_patterns = true.
Proof. split; vm_compute; reflexivity. Qed.

Section Engine.
Context {W : Type} `{!OS W}.
Variable terminal_execute_command : string → M W string.

Abbreviation execute := (NLP.execute terminal_execute_command).
Abbreviation call := (NLP.call terminal_execute_command).

(** C1. For a query that is not empty and not a help keyword, [execute]
    is the call of the handler bound to the first pattern of the table
    that is found in the query, with the groups of that match: whatever
    the later patterns of the table are, none of their handlers runs. *)
Theorem execute_first_match (args : list string) (st : St W)
    (pre post : list (Re.regex * handler))
    (p : Re.regex) (h : handler) (groups : list string) :
  Py.join " " args ≠ "" →
  Py.str_in (Py.lower (Py.join " " args)) ["help"; "examples"] = false →
  command_patterns = pre ++ (p, h) :: post →
  Forall (λ ph, Re.search ph.1 (Py.join " " args) = None) pre →
  Re.search p (Py.join " " args) = Some groups →
  first_match command_patterns (Py.join " " args) = Some (h, groups)
  ∧ execute args st = call h groups st.
Proof.
  intros Hne Hhelp Htable Hpre Hp.
  assert (first_match command_patterns (Py.join " " args) = Some (h, groups))
    as Hfirst by (rewrite Htable; by apply first_match_first).
  split; [done|]. unfold NLP.execute.
  destruct (Py.is_empty (Py.join " " args)) eqn:He.
  { by apply is_empty_true in He. }
  by rewrite Hhelp, Hfirst.
Qed.

(** C4. A query that is not empty, is not a help keyword and in which no
    pattern of the table is found gets the message that quotes it and
    points to [nlp help]; the state is the one before, so no handler
    ran. *)
Theorem execute_no_match (args : list string) (st : St W) :
  Py.join " " args ≠ "" →
  Py.str_in (Py.lower (Py.join " " args)) ["help"; "examples"] = false →
  Forall (λ ph, Re.search ph.1 (Py.join " " args) = None) command_patterns →
  execute args st
  = (Ok ("I don't understand '" +:+ Py.join " " args
         +:+ "'. Type 'nlp help' for examples of commands I understand."),
     st).
Proof.
  intros Hne Hhelp Hnone. unfold NLP.execute.
  destruct (Py.is_empty (Py.join " " args)) eqn:He.
  { by apply is_empty_true in He. }
  by rewrite Hhelp, (first_match_none _ _ Hnone).
Qed.

(** C6. A query whose lower case is [help] or [examples] gets the static
    listing of examples; the table is not consulted and the state is the
    one before. *)
Theorem execute_help (args : list string) (st : St W) :
  Py.str_in (Py.lower (Py.join " " args)) ["help"; "examples"] = true →
  execute args st = (Ok _show_examples, st).
Proof.
  intros Hhelp. unfold NLP.execute.
  destruct (Py.join " " args) as [|c q] eqn:Hq; [done|].
  cbn [Py.is_empty]. by rewrite Hhelp.
Qed.

(** C5, as the code has it. A blank query (no character that is not
    whitespace) never reaches a handler: the empty query gets the
    guidance message, a blank query that is not empty gets the no-match
    message, and the state is the one before. Typed at the terminal
    after [nlp], a blank query is tokenized to no argument at all, so it
    reaches [execute] as the empty query and gets the guidance
    message. *)
Theorem execute_blank (args : list string) (st : St W) :
  Py.all_space (Py.join " " args) = true →
  execute args st
  = (Ok (if Py.is_empty (Py.join " " args) then need_input
         else dont_understand (Py.join " " args)), st)
  ∧ parse_command ("nlp " +:+ Py.join " " args) = ("nlp", [])
  ∧ execute (parse_command ("nlp " +:+ Py.join " " args)).2 st
    = (Ok "Please enter a natural language command. Type 'nlp help' for examples.",
       st).
Proof.
  intros Hblank. split_and!.
  - unfold NLP.execute.
    destruct (Py.join " " args) as [|c q] eqn:Hq; [done|].
    cbn [Py.is_empty].
    destruct (Py.str_in (Py.lower (String c q)) ["help"; "examples"]) eqn:Hh.
    + exfalso. cbn [Py.all_space] in Hblank.
      apply andb_prop in Hblank as [Hc _].
      cbn in Hh. rewrite !orb_true_iff in Hh.
      destruct Hh as [Hh|[Hh|Hh]]; [| |done].
      all: apply andb_prop in Hh as [Hh _];
        apply Ascii.eqb_eq in Hh;
        rewrite <- (lower_char_space c), Hh in Hc; done.
    + by rewrite (first_match_blank _ Hblank).
  - by apply parse_nlp_blank.
  - by rewrite parse_nlp_blank.
Qed.

End Engine.

(** ** The handler adapters *)

Lemma not_dash_not_flag (path flag : string) :
  Py.startswith flag "-" = true → Py.startswith path "-" = false →
  Py.str_in flag [path] = false.
Proof.
  intros Hflag Hpath. cbn [Py.str_in existsb]. rewrite orb_false_r.
  destruct (String.eqb flag path) eqn:Heq; [|done].
  apply String.eqb_eq in Heq. congruence.
Qed.

Section Adapters.
Context {W : Type} `{!OS W}.
Variable terminal_execute_command : string → M W string.

Abbreviation term := terminal_execute_command.

(** C3. The move adapter hands [shutil.move] the trimmed source and, as
    final path, the trimmed destination joined with the base name of the
    source when the destination is an existing directory, the trimmed
    destination itself when it is not. The utterance
    [move report.pdf to Documents] resolves to this adapter with the slots
    [report.pdf] and [Documents], and its final path is
    [Documents/report.pdf] or [Documents] accordingly. *)
Theorem move_item_final_path (source destination : string) (st : St W) :
  _move_item source destination st
  = (let S := Py.strip source in
     let D := Py.strip destination in
     let dest_path :=
       if os_path_isdir D (world st)
       then PosixPath.join D (PosixPath.basename S) else D in
     match shutil_move S dest_path (world st) with
     | (None, w) => (Ok ("Moved " +:+ S +:+ " to " +:+ D), set_world w st)
     | (Some e, w) =>
         (Ok ("Error moving " +:+ S +:+ " to " +:+ D +:+ ": " +:+ exn_str e),
          set_world w st)
     end)
  ∧ NLP.execute term ["move"; "report.pdf"; "to"; "Documents"] st
    = _move_item "report.pdf" "Documents" st
  ∧ move_dest_path "report.pdf" "Documents" (world st)
    = (if os_path_isdir "Documents" (world st)
       then "Documents/report.pdf" else "Documents").
Proof.
  split_and!.
  - unfold _move_item, move_dest_path, bind, try_except, os_query, os_call, ret.
    cbn zeta.
    by destruct (shutil_move _ _ (world st)) as [[e|] w].
  - reflexivity.
  - unfold move_dest_path. by destruct (os_path_isdir _ _).
Qed.

(** C7. The direct adapters never raise. Each returns a text: the success
    message when the operation it performs raises nothing, and, when the
    operation raises [e], the error message made of the two trimmed slots
    and [str(e)]. *)
Theorem direct_adapters_catch (a b : string) (st : St W) :
  (∃ path r w,
     shutil_move (Py.strip a) path (world st) = (r, w)
     ∧ _move_item a b st
       = (Ok (match r with
              | None => "Moved " +:+ Py.strip a +:+ " to " +:+ Py.strip b
              | Some e => "Error moving " +:+ Py.strip a +:+ " to "
                          +:+ Py.strip b +:+ ": " +:+ exn_str e
              end), set_world w st))
  ∧ (∃ r w,
       os_rename (Py.strip a) (Py.strip b) (world st) = (r, w)
       ∧ _rename_item a b st
         = (Ok (match r with
                | None => "Renamed " +:+ Py.strip a +:+ " to " +:+ Py.strip b
                | Some e => "Error renaming " +:+ Py.strip a +:+ " to "
                            +:+ Py.strip b +:+ ": " +:+ exn_str e
                end), set_world w st))
  ∧ (∃ path r w,
       (if os_path_isdir (Py.strip a) (world st)
        then shutil_copytree else shutil_copy2)
         (Py.strip a) path (world st) = (r, w)
       ∧ _copy_item a b st
         = (Ok (match r with
                | None => "Copied " +:+ Py.strip a +:+ " to " +:+ Py.strip b
                | Some e => "Error copying " +:+ Py.strip a +:+ " to "
                            +:+ Py.strip b +:+ ": " +:+ exn_str e
                end), set_world w st)).
Proof.
  split_and!.
  - unfold _move_item, bind, try_except, os_query, os_call, ret. cbn zeta.
    destruct (shutil_move (Py.strip a) _ (world st)) as [r w] eqn:Hop.
    exists (move_dest_path (Py.strip a) (Py.strip b) (world st)), r, w.
    split; [done|]. by destruct r.
  - unfold _rename_item, bind, try_except, os_call, ret. cbn zeta.
    destruct (os_rename _ _ (world st)) as [r w] eqn:Hop.
    exists r, w. split; [done|]. by destruct r.
  - unfold _copy_item, bind, try_except, os_query, os_call, ret. cbn zeta.
    destruct (os_path_isdir (Py.strip a) (world st)).
    + destruct (shutil_copytree (Py.strip a) _ (world st)) as [r w] eqn:Hop.
      eexists _, r, w. split; [exact Hop|]. by destruct r.
    + destruct (shutil_copy2 (Py.strip a) _ (world st)) as [r w] eqn:Hop.
      eexists _, r, w. split; [exact Hop|]. by destruct r.
Qed.

(** C8. The remove adapter dispatches [rm -r] with the quoted, trimmed
    target when the target is an existing directory and plain [rm] when it
    is not. The removal command, given a directory and no recursive flag,
    refuses: it reports [Is a directory] and leaves the world as it is. *)
Theorem remove_item_branches (item_name path : string) (st : St W) :
  _remove_item term item_name st
  = term ((if os_path_isdir (Py.strip item_name) (world st)
           then "rm -r " else "rm ")
          +:+ Shlex.quote (Py.strip item_name)) st
  ∧ (os_path_isdir path (world st) = true →
     Py.startswith path "-" = false →
     Term.execute RmCommand [path] st
     = (Ok ("rm: cannot remove '" +:+ path +:+ "': Is a directory"), st)).
Proof.
  split.
  - unfold _remove_item, bind, os_query. cbn zeta.
    by destruct (os_path_isdir _ _).
  - intros Hdir Hdash. cbn [Term.execute RmCommand]. unfold RmCommand_execute.
    rewrite !(not_dash_not_flag path) by done. cbn [orb].
    rewrite filter_cons_True, filter_nil by done.
    cbn [for_each]. unfold rm_one, bind, try_except, os_query, ret.
    by rewrite Hdir.
Qed.

(** C9. [show files in Downloads] is found by the listing pattern with the
    one slot [Downloads] and dispatches the line [ls Downloads], which the
    terminal parses into [ls] with the one argument [Downloads];
    [show files in] is found with the empty slot and dispatches [ls .],
    parsed into [ls] with the one argument [.]. The listing adapter puts
    [.] for an empty slot, whatever the utterance. *)
Theorem list_directory_slot (st : St W) :
  first_match command_patterns "show files in Downloads"
    = Some (H_list_directory, ["Downloads"])
  ∧ NLP.execute term ["show"; "files"; "in"; "Downloads"] st
    = term "ls Downloads" st
  ∧ parse_command "ls Downloads" = ("ls", ["Downloads"])
  ∧ first_match command_patterns "show files in"
    = Some (H_list_directory, [""])
  ∧ NLP.execute term ["show"; "files"; "in"] st = term "ls ." st
  ∧ parse_command "ls ." = ("ls", ["."])
  ∧ _list_directory term "" st = term "ls ." st.
Proof. split_and!; reflexivity. Qed.

End Adapters.

(** ** The command history *)

Section History.
Context {W : Type} `{!OS W}.

Lemma keeps_ret {A} (a : A) : keeps_history (ret (W:=W) a).
Proof. done. Qed.

Lemma keeps_raise {A} (e : exn) : keeps_history (raise (W:=W) (A:=A) e).
Proof. done. Qed.

Lemma keeps_bind {A B} (c : M W A) (f : A → M W B) :
  keeps_history c → (∀ a, keeps_history (f a)) → keeps_history (bind c f).
Proof.
  intros Hc Hf st. unfold bind. specialize (Hc st).
  destruct (c st) as [[a|e] st']; cbn in *; [|done].
  by rewrite Hf.
Qed.

Lemma keeps_try_except {A} (c : M W A) (h : exn → M W A) :
  keeps_history c → (∀ e, keeps_history (h e)) →
  keeps_history (try_except c h).
Proof.
  intros Hc Hh st. unfold try_except. specialize (Hc st).
  destruct (c st) as [[a|e] st']; cbn in *; [done|].
  by rewrite Hh.
Qed.

Lemma keeps_os_call (op : W → option exn * W) : keeps_history (os_call op).
Proof. intros st. unfold os_call. by destruct (op (world st)) as [[e|] w]. Qed.

Lemma keeps_os_query {A} (q : W → A) : keeps_history (os_query q).
Proof. done. Qed.

Lemma keeps_for_each (body : string → list string → M W (list string))
    (paths errors : list string) :
  (∀ p errs, keeps_history (body p errs)) →
  keeps_history (for_each body paths errors).
Proof.
  intros Hbody. revert errors.
  induction paths as [|p paths IH]; intros errors; cbn [for_each].
  - apply keeps_ret.
  - apply keeps_bind; [apply Hbody|apply IH].
Qed.

Lemma keeps_builtin (n d : string) (args : list string) :
  keeps_history (Term.execute (builtin (W:=W) n d) args).
Proof.
  intros st. cbn. by destruct (builtin_execute n args _ _) as [r w].
Qed.

Lemma keeps_mkdir (args : list string) :
  keeps_history (MkdirCommand_execute (W:=W) args).
Proof.
  unfold MkdirCommand_execute. destruct args as [|a args]; [apply keeps_ret|].
  apply keeps_bind; [|intros; apply keeps_ret].
  apply keeps_for_each. intros p errs. unfold mkdir_one.
  apply keeps_try_except.
  - apply keeps_bind; [apply keeps_os_call|intros; apply keeps_ret].
  - intros e. destruct (exn_cls e); apply keeps_ret || apply keeps_raise.
Qed.

Lemma keeps_rm_one (recursive force : bool) (path : string)
    (errors : list string) :
  keeps_history (rm_one (W:=W) recursive force path errors).
Proof.
  unfold rm_one. apply keeps_try_except.
  - apply keeps_bind; [apply keeps_os_query|]. intros [].
    + destruct recursive; [|apply keeps_ret].
      apply keeps_bind; [apply keeps_os_call|intros; apply keeps_ret].
    + apply keeps_bind; [apply keeps_os_call|intros; apply keeps_ret].
  - intros e. destruct (exn_cls e), force; apply keeps_ret.
Qed.

Lemma keeps_rm (args : list string) :
  keeps_history (RmCommand_execute (W:=W) args).
Proof.
  unfold RmCommand_execute. destruct args as [|a args]; [apply keeps_ret|].
  apply keeps_bind; [|intros; apply keeps_ret].
  apply keeps_for_each. intros p errs. apply keeps_rm_one.
Qed.

(** What holds of the commands registered holds of the registry. *)
Lemma register_all (P : Command W → Prop) (cs : list (Command W))
    (commands : gmap string (Command W)) :
  map_Forall (λ _, P) commands → Forall P cs →
  map_Forall (λ _, P)
    (foldl (λ commands c, register_command c commands) commands cs).
Proof.
  intros Hm Hcs. revert commands Hm.
  induction Hcs as [|c cs Hc _ IH]; intros commands Hm; cbn [foldl]; [done|].
  apply IH. unfold register_command. by apply map_Forall_insert_2.
Qed.

(** No command of [Terminal] writes the history. *)
Lemma register_commands_keep (n : string) (c : Command W) :
  register_commands !! n = Some c → ∀ args, keeps_history (Term.execute c args).
Proof.
  revert n c.
  apply (register_all (λ c, ∀ args, keeps_history (Term.execute c args)));
    [apply map_Forall_empty|].
  repeat apply Forall_cons_2; try apply Forall_nil_2; intros args;
    first [apply keeps_builtin | apply keeps_mkdir | apply keeps_rm
          | apply keeps_ret].
Qed.

(** The dispatcher, case by case. *)
Lemma execute_command_cases (commands : gmap string (Command W))
    (line : string) (st : St W) :
  execute_command commands line st
  = if Py.all_space line then (Ok "", st)
    else match commands !! (parse_command line).1 with
         | Some c => Term.execute c (parse_command line).2 (history_append line st)
         | None => (Ok ((parse_command line).1 +:+ ": command not found"),
                    history_append line st)
         end.
Proof.
  unfold execute_command. rewrite strip_is_empty.
  destruct (Py.all_space line); [done|].
  by destruct (parse_command line) as [n args].
Qed.

(** C10. A line without a non-whitespace character returns the empty text
    and leaves the state as it is. Any other line is appended to the
    history before dispatch: the command found under the parsed name runs
    on the state that already holds the line, and a name that is not
    registered gives the text [<name>: command not found] in that state.
    For the registry of [Terminal], whose commands do not write the
    history, the history after the call is the history before with the
    raw line as its one new entry, whether the command returns a text,
    reports an error or raises. *)
Theorem execute_command_history (commands : gmap string (Command W))
    (line : string) (st : St W) :
  execute_command commands line st
  = (if Py.all_space line then (Ok "", st)
     else match commands !! (parse_command line).1 with
          | Some c =>
              Term.execute c (parse_command line).2 (history_append line st)
          | None =>
              (Ok ((parse_command line).1 +:+ ": command not found"),
               history_append line st)
          end)
  ∧ command_history (history_append line st) = command_history st ++ [line]
  ∧ command_history (execute_command register_commands line st).2
    = (if Py.all_space line then command_history st
       else command_history st ++ [line]).
Proof.
  split_and!; [apply execute_command_cases|done|].
  rewrite execute_command_cases. destruct (Py.all_space line); [done|].
  destruct (register_commands !! _) as [c|] eqn:Hc; [|done].
  by rewrite (register_commands_keep _ _ Hc).
Qed.

End History.

(** ** Tokenization of a composed line *)

Lemma app_cons (c : ascii) (s t : string) :
  String c s +:+ t = String c (s +:+ t).
Proof. done. Qed.

Lemma rev_app_rev_app (n a b : string) :
  String.rev_app (String.rev_app n a) b = String.rev_app a (n +:+ b).
Proof.
  revert a b. induction n as [|c n IH]; intros a b; [done|].
  cbn [String.rev_app]. by rewrite IH.
Qed.

Lemma split_go_word (acc n y : string) :
  Py.no_space n = true →
  Py.split_go (Some acc) (n +:+ y)
  = Py.split_go (Some (String.rev_app n acc)) y.
Proof.
  revert acc. induction n as [|c n IH]; intros acc Hn; [done|].
  cbn [Py.no_space] in Hn. apply andb_prop in Hn as [Hc Hn].
  rewrite app_cons. cbn [Py.split_go String.rev_app].
  apply negb_true_iff in Hc. rewrite Hc. by apply IH.
Qed.

Lemma split_go_start (n y : string) :
  Py.is_word n = true →
  Py.split_go None (n +:+ y) = Py.split_go (Some (String.rev_app n "")) y.
Proof.
  intros [Hne Hn]%andb_prop. destruct n as [|c n]; [done|].
  cbn [Py.no_space] in Hn. apply andb_prop in Hn as [Hc Hn].
  rewrite app_cons. cbn [Py.split_go String.rev_app].
  apply negb_true_iff in Hc. rewrite Hc. by apply split_go_word.
Qed.

Lemma rev_rev_app (n : string) : String.rev (String.rev_app n "") = n.
Proof.
  unfold String.rev. rewrite rev_app_rev_app. cbn [String.rev_app].
  induction n as [|c n IH]; [done|]. by rewrite app_cons, IH.
Qed.

Lemma split_word (n : string) : Py.is_word n = true → Py.split n = [n].
Proof.
  intros Hn. unfold Py.split.
  replace n with (n +:+ "") at 1
    by (clear; induction n as [|c n IH]; [done|]; by rewrite app_cons, IH).
  rewrite split_go_start by done. cbn. by rewrite rev_rev_app.
Qed.

Lemma split_word_space (n y : string) :
  Py.is_word n = true → Py.split (n +:+ " " +:+ y) = n :: Py.split y.
Proof.
  intros Hn. unfold Py.split. rewrite split_go_start by done.
  change (" " +:+ y) with (String " " y). cbn [Py.split_go].
  change (Py.isspace " ") with true. cbn. by rewrite rev_rev_app.
Qed.

Lemma join_word (x : string) (ws : list string) :
  Py.is_word x = true → Py.is_empty (Py.join " " (x :: ws)) = false.
Proof.
  intros [Hne _]%andb_prop. destruct x as [|c x]; [done|].
  by destruct ws.
Qed.

(** Tokens joined by single spaces split into the same tokens. *)
Lemma split_join (ws : list string) :
  Forall (λ w, Py.is_word w = true) ws → Py.split (Py.join " " ws) = ws.
Proof.
  induction 1 as [|x ws Hx Hws IH]; [done|].
  destruct ws as [|y ws]; [by apply split_word|].
  change (Py.join " " (x :: y :: ws)) with (x +:+ " " +:+ Py.join " " (y :: ws)).
  by rewrite split_word_space, IH.
Qed.

Lemma rstrip_word_app (n y : string) :
  Py.no_space n = true → Py.rstrip (n +:+ y) = n +:+ Py.rstrip y.
Proof.
  induction n as [|c n IH]; intros Hn; [done|].
  cbn [Py.no_space] in Hn. apply andb_prop in Hn as [Hc Hn].
  rewrite !app_cons. cbn [Py.rstrip]. rewrite IH by done.
  apply negb_true_iff in Hc. by rewrite Hc, andb_false_r.
Qed.

Lemma rstrip_join (ws : list string) :
  Forall (λ w, Py.is_word w = true) ws →
  Py.rstrip (Py.join " " ws) = Py.join " " ws.
Proof.
  induction 1 as [|x ws Hx Hws IH]; [done|].
  pose proof Hx as [_ Hn]%andb_prop.
  destruct ws as [|y ws].
  - cbn [Py.join].
    replace x with (x +:+ "") at 1
      by (clear; induction x as [|c x IH]; [done|]; by rewrite app_cons, IH).
    rewrite rstrip_word_app by done. cbn [Py.rstrip].
    clear. induction x as [|c x IH]; [done|]. by rewrite app_cons, IH.
  - change (Py.join " " (x :: y :: ws))
      with (x +:+ String " " (Py.join " " (y :: ws))).
    rewrite rstrip_word_app by done. cbn [Py.rstrip]. rewrite IH.
    apply Forall_cons in Hws as [Hy _].
    by rewrite (join_word y ws Hy).
Qed.

(** [parse_command] undoes the composition of a line from a command name
    and arguments that are tokens. *)
Lemma parse_command_join (n : string) (args : list string) :
  Py.is_word n = true → Forall (λ w, Py.is_word w = true) args →
  parse_command (Py.join " " (n :: args)) = (n, args).
Proof.
  intros Hn Hargs. unfold parse_command, Py.strip.
  assert (Py.lstrip (Py.join " " (n :: args)) = Py.join " " (n :: args)) as ->.
  { pose proof Hn as [Hne Hsp]%andb_prop. destruct n as [|c n]; [done|].
    cbn [Py.no_space] in Hsp. apply andb_prop in Hsp as [Hc _].
    apply negb_true_iff in Hc.
    destruct args; cbn [Py.join]; rewrite ?app_cons; cbn [Py.lstrip];
      by rewrite Hc. }
  rewrite rstrip_join by (by constructor).
  fold (Py.split (Py.join " " (n :: args))).
  by rewrite split_join by (by constructor).
Qed.

Lemma safe_not_space (c : ascii) : Shlex.safe c = true → Py.isspace c = false.
Proof. by destruct c as [[] [] [] [] [] [] [] []]. Qed.

Lemma all_safe_no_space (s : string) :
  Shlex.all_safe s = true → Py.no_space s = true.
Proof.
  induction s as [|c s IH]; [done|]. cbn [Shlex.all_safe Py.no_space].
  intros [Hc Hs]%andb_prop. by rewrite (safe_not_space c Hc), IH.
Qed.

(** Where the round trip holds: a slot of safe characters is composed
    unquoted and parsed back as the one argument it is. *)
Lemma safe_slot_round_trip (cmd slot : string) :
  Py.is_word cmd = true →
  Py.is_empty slot = false → Shlex.all_safe slot = true →
  parse_command (cmd +:+ " " +:+ Shlex.quote slot) = (cmd, [slot]).
Proof.
  intros Hcmd Hne Hsafe. unfold Shlex.quote. rewrite Hne, Hsafe.
  apply (parse_command_join cmd [slot]); [done|].
  constructor; [|done]. unfold Py.is_word.
  by rewrite Hne, all_safe_no_space.
Qed.

(** C2, at the slot [Projects Folder]. The utterance resolves to the
    directory-creation adapter with that slot; the adapter composes the line
    [mkdir 'Projects Folder'], and [parse_command] splits the line at the
    space inside the quotes: the command gets two arguments, each with a
    quote character, and [mkdir] makes two directories. A slot with a
    backslash and no space comes back as one argument, with the quotes
    around it. *)
Theorem quoted_slot_is_split :
  first_match command_patterns "create a new folder called Projects Folder"
    = Some (H_create_directory, ["Projects Folder"])
  ∧ Shlex.quote "Projects Folder" = "'Projects Folder'"
  ∧ parse_command ("mkdir " +:+ Shlex.quote "Projects Folder")
    = ("mkdir", ["'Projects"; "Folder'"])
  ∧ Sim.dirs (world (NLP.execute Sim.terminal
       ["create"; "a"; "new"; "folder"; "called"; "Projects"; "Folder"]
       Sim.st0).2)
    = ["Documents"; "'Projects"; "Folder'"]
  ∧ parse_command ("mkdir " +:+ Shlex.quote "a\b") = ("mkdir", ["'a\b'"]).
Proof. split_and!; vm_compute; reflexivity. Qed.

(** ** [AITerminal]: the history only grows *)

Section Growth.
Context {W : Type} `{!OS W}.

Lemma grows_of_keeps {A} (c : M W A) : keeps_history c → grows_history c.
Proof. intros Hc st. by rewrite Hc. Qed.

Lemma grows_bind {A B} (c : M W A) (f : A → M W B) :
  grows_history c → (∀ a, grows_history (f a)) → grows_history (bind c f).
Proof.
  intros Hc Hf st. unfold bind. specialize (Hc st).
  destruct (c st) as [[a|e] st']; cbn in *; [|done].
  etrans; [exact Hc|apply Hf].
Qed.

Lemma grows_execute_command (commands : gmap string (Command W))
    (line : string) :
  map_Forall (λ _ c, ∀ args, grows_history (Term.execute c args)) commands →
  grows_history (execute_command commands line).
Proof.
  intros Hcs st. rewrite execute_command_cases.
  destruct (Py.all_space line); [done|].
  destruct (commands !! _) as [c|] eqn:Hc.
  - etrans; [|apply (Hcs _ _ Hc)]. by apply prefix_app_r.
  - by apply prefix_app_r.
Qed.

Section Handlers.
Variable terminal_execute_command : string → M W string.
Hypothesis terminal_grows : ∀ line, grows_history (terminal_execute_command line).

Lemma grows_call (h : handler) (groups : list string) :
  grows_history (call terminal_execute_command h groups).
Proof.
  assert (∀ a b, grows_history (_move_item a b)) as Hmove.
  { intros a b. apply grows_of_keeps. unfold _move_item.
    apply keeps_bind; [apply keeps_os_query|]. intros p.
    apply keeps_try_except; [|intros; apply keeps_ret].
    apply keeps_bind; [apply keeps_os_call|intros; apply keeps_ret]. }
  assert (∀ a b, grows_history (_rename_item a b)) as Hrename.
  { intros a b. apply grows_of_keeps. unfold _rename_item.
    apply keeps_try_except; [|intros; apply keeps_ret].
    apply keeps_bind; [apply keeps_os_call|intros; apply keeps_ret]. }
  assert (∀ a b, grows_history (_copy_item a b)) as Hcopy.
  { intros a b. apply grows_of_keeps. unfold _copy_item.
    apply keeps_try_except; [|intros; apply keeps_ret].
    apply keeps_bind; [apply keeps_os_query|]. intros [].
    - apply keeps_bind; [|intros; apply keeps_ret].
      apply keeps_bind; [apply keeps_os_query|]. intros ?. apply keeps_os_call.
    - apply keeps_bind; [|intros; apply keeps_ret].
      apply keeps_bind; [apply keeps_os_query|]. intros ?. apply keeps_os_call. }
  assert (∀ a, grows_history (_remove_item terminal_execute_command a)) as Hrm.
  { intros a. unfold _remove_item.
    apply grows_bind; [apply grows_of_keeps, keeps_os_query|].
    intros []; apply terminal_grows. }
  assert (∀ a, grows_history (_show_command_help terminal_execute_command a))
    as Hhelp.
  { intros a. unfold _show_command_help.
    destruct (Re.search _ _) as [[|? []]|]; apply terminal_grows. }
  destruct h, groups as [|a [|b [|? ?]]]; cbn [call];
    first [ apply terminal_grows | apply Hmove | apply Hrename | apply Hcopy
          | apply Hrm | apply Hhelp
          | apply grows_of_keeps, keeps_raise ].
Qed.

Lemma grows_nlp_execute (args : list string) :
  grows_history (NLP.execute terminal_execute_command args).
Proof.
  unfold NLP.execute.
  destruct (Py.is_empty _); [by apply grows_of_keeps, keeps_ret|].
  destruct (Py.str_in _ _); [by apply grows_of_keeps, keeps_ret|].
  destruct (first_match _ _) as [[h groups]|];
    [apply grows_call|by apply grows_of_keeps, keeps_ret].
Qed.

End Handlers.

Lemma register_commands_grow :
  map_Forall (λ _ (c : Command W), ∀ args, grows_history (Term.execute c args))
    register_commands.
Proof.
  intros n c Hc args. apply grows_of_keeps. by eapply register_commands_keep.
Qed.

(** X28. With the natural-language command registered, a call of the
    dispatcher may add more than one entry (the line, then the line its
    handler composes), and never removes or changes one. *)
Lemma ai_history_append_only (line : string) :
  grows_history (ai_execute_command (W:=W) line).
Proof.
  apply grows_execute_command. unfold ai_commands, register_command.
  apply map_Forall_insert_2.
  { intros args. apply grows_of_keeps, keeps_builtin. }
  apply map_Forall_insert_2; [|apply register_commands_grow].
  intros args. apply grows_nlp_execute. intros l.
  apply grows_execute_command, register_commands_grow.
Qed.

(** Lines whose command is not one of the two that [AITerminal] adds are
    dispatched as by [Terminal]. *)
Lemma ai_dispatch_own (terminal_execute_command : string → M W string)
    (line : string) (st : St W) :
  (parse_command line).1 ≠ "nlp" →
  (parse_command line).1 ≠ "autocomplete" →
  execute_command (ai_commands terminal_execute_command) line st
  = execute_command register_commands line st.
Proof.
  intros Hnlp Hauto. rewrite !execute_command_cases.
  unfold ai_commands, register_command. cbn [name AutoCompleteCommand builtin NLPCommand].
  by rewrite !lookup_insert_ne.
Qed.

End Growth.

Lemma ai_history_two_entries :
  command_history (ai_execute_command "nlp remove Documents" Sim.st0).2
  = ["nlp remove Documents"; "rm -r Documents"].
Proof. vm_compute; reflexivity. Qed.

(** ** Instances in the small world *)

(** [show contents of notes.txt] is found by the fifth pattern, the
    listing, before the file-content pattern that also finds it. *)
Lemma execute_first_match_witness :
  first_match command_patterns
      (Py.join " " ["show"; "contents"; "of"; "notes.txt"])
    = Some (H_list_directory, ["notes.txt"])
  ∧ NLP.execute Sim.terminal ["show"; "contents"; "of"; "notes.txt"] Sim.st0
    = call Sim.terminal H_list_directory ["notes.txt"] Sim.st0.
Proof.
  apply (execute_first_match Sim.terminal
           ["show"; "contents"; "of"; "notes.txt"] Sim.st0
           (take 4 command_patterns) (drop 5 command_patterns)
           (default (Re.Lit "") (fst <$> command_patterns !! 4%nat))
           H_list_directory ["notes.txt"]).
  - vm_compute. discriminate.
  - vm_compute. reflexivity.
  - vm_compute. reflexivity.
  - apply none_found_Forall. vm_compute. reflexivity.
  - vm_compute. reflexivity.
Defined.

Lemma execute_no_match_witness :
  NLP.execute Sim.terminal ["frobnicate"; "the"; "zonkulator"] Sim.st0
  = (Ok "I don't understand 'frobnicate the zonkulator'. Type 'nlp help' for examples of commands I understand.",
     Sim.st0).
Proof.
  apply (execute_no_match Sim.terminal ["frobnicate"; "the"; "zonkulator"]
           Sim.st0).
  - vm_compute. discriminate.
  - vm_compute. reflexivity.
  - apply none_found_Forall. vm_compute. reflexivity.
Defined.

Lemma execute_help_witness :
  NLP.execute Sim.terminal ["HeLp"] Sim.st0 = (Ok _show_examples, Sim.st0)
  ∧ NLP.execute Sim.terminal ["EXAMPLES"] Sim.st0 = (Ok _show_examples, Sim.st0).
Proof.
  split.
  - apply (execute_help Sim.terminal ["HeLp"] Sim.st0). vm_compute. reflexivity.
  - apply (execute_help Sim.terminal ["EXAMPLES"] Sim.st0).
    vm_compute. reflexivity.
Defined.

Lemma execute_blank_witness :
  NLP.execute Sim.terminal [] Sim.st0 = (Ok need_input, Sim.st0)
  ∧ NLP.execute Sim.terminal (parse_command "nlp  ").2 Sim.st0
    = (Ok "Please enter a natural language command. Type 'nlp help' for examples.",
       Sim.st0).
Proof.
  split.
  - apply (execute_blank Sim.terminal [] Sim.st0). vm_compute. reflexivity.
  - apply (execute_blank Sim.terminal [" "] Sim.st0). vm_compute. reflexivity.
Defined.

(** C5 as stated fails at the query of one space: it is blank, and the
    answer is the no-match message, not the guidance message. *)
Lemma blank_query_not_guided :
  Py.all_space (Py.join " " [" "]) = true
  ∧ NLP.execute Sim.terminal [" "] Sim.st0
    = (Ok "I don't understand ' '. Type 'nlp help' for examples of commands I understand.",
       Sim.st0)
  ∧ NLP.execute Sim.terminal [" "] Sim.st0 ≠ (Ok need_input, Sim.st0).
Proof. split_and!; [vm_compute; reflexivity..|vm_compute; discriminate]. Qed.

Lemma remove_item_branches_witness :
  _remove_item Sim.terminal " Documents " Sim.st0
    = Sim.terminal "rm -r Documents" Sim.st0
  ∧ _remove_item Sim.terminal "report.pdf" Sim.st0
    = Sim.terminal "rm report.pdf" Sim.st0
  ∧ Term.execute RmCommand ["Documents"] Sim.st0
    = (Ok "rm: cannot remove 'Documents': Is a directory", Sim.st0).
Proof.
  destruct (remove_item_branches Sim.terminal " Documents " "Documents" Sim.st0)
    as [Hdir Hrefuse].
  destruct (remove_item_branches Sim.terminal "report.pdf" "Documents" Sim.st0)
    as [Hfile _].
  split_and!.
  - exact Hdir.
  - exact Hfile.
  - apply Hrefuse; vm_compute; reflexivity.
Defined.

(** The move of the specification, with and without the folder. *)
Lemma move_report_to_documents :
  Sim.calls (world (NLP.execute Sim.terminal
      ["move"; "report.pdf"; "to"; "Documents"] Sim.st0).2)
    = [("shutil.move", ["report.pdf"; "Documents/report.pdf"])]
  ∧ Sim.calls (world (NLP.execute Sim.terminal
      ["move"; "report.pdf"; "to"; "Documents"] Sim.st1).2)
    = [("shutil.move", ["report.pdf"; "Documents"])].
Proof. split; vm_compute; reflexivity. Qed.

(** A move that fails is reported, not raised. *)
Lemma move_missing_source :
  NLP.execute Sim.terminal ["move"; "nothing"; "to"; "nowhere"] Sim.st0
  = (Ok "Error moving nothing to nowhere: [Errno 2] No such file or directory: 'nothing'",
     set_world (Sim.log "shutil.move" ["nothing"; "nowhere"] Sim.w0) Sim.st0).
Proof. vm_compute; reflexivity. Qed.

(** The listing of the specification reaches [ls] with one argument. *)
Lemma show_files_in_downloads :
  Sim.calls (world (NLP.execute Sim.terminal
      ["show"; "files"; "in"; "Downloads"] Sim.st0).2)
    = [("ls", ["Downloads"])]
  ∧ Sim.calls (world (NLP.execute Sim.terminal
      ["show"; "files"; "in"] Sim.st0).2)
    = [("ls", ["."])].
Proof. split; vm_compute; reflexivity. Qed.

(** * Further properties *)

(** ** Tokenization *)

Lemma split_go_blank (cur : option string) (b : string) :
  Py.all_space b = true →
  Py.split_go cur b = option_list (String.rev <$> cur).
Proof.
  intros Hb. destruct b as [|c b]; [done|].
  cbn [Py.all_space] in Hb. apply andb_prop in Hb as [Hc Hb].
  cbn [Py.split_go]. by rewrite Hc, (split_go_all_space b Hb), app_nil_r.
Qed.

Lemma split_go_leading (a x : string) :
  Py.all_space a = true →
  Py.split_go None (a +:+ x) = Py.split_go None x.
Proof.
  induction a as [|c a IH]; intros Ha; [done|].
  cbn [Py.all_space] in Ha. apply andb_prop in Ha as [Hc Ha].
  rewrite app_cons. cbn [Py.split_go]. rewrite Hc. by apply IH.
Qed.

Lemma split_go_trailing (cur : option string) (s b : string) :
  Py.all_space b = true →
  Py.split_go cur (s +:+ b) = Py.split_go cur s.
Proof.
  intros Hb. revert cur. induction s as [|c s IH]; intros cur.
  - change ("" +:+ b) with b. by rewrite split_go_blank.
  - rewrite app_cons. cbn [Py.split_go].
    destruct (Py.isspace c); by rewrite IH.
Qed.

Lemma split_lstrip (s : string) : Py.split (Py.lstrip s) = Py.split s.
Proof.
  unfold Py.split. induction s as [|c s IH]; [done|].
  cbn [Py.lstrip]. destruct (Py.isspace c) eqn:Hc.
  - rewrite IH. cbn [Py.split_go]. by rewrite Hc.
  - done.
Qed.

Lemma split_go_rstrip (cur : option string) (s : string) :
  Py.split_go cur (Py.rstrip s) = Py.split_go cur s.
Proof.
  revert cur. induction s as [|c s IH]; intros cur; [done|].
  cbn [Py.rstrip]. rewrite rstrip_is_empty.
  destruct (Py.all_space s) eqn:Hs, (Py.isspace c) eqn:Hc; cbn [andb];
    cbn [Py.split_go]; rewrite ?Hc, ?IH; try done.
  by rewrite (split_go_all_space s Hs), app_nil_r.
Qed.

(** [parse_command] strips the line before it splits it, to no effect. *)
Lemma split_strip (s : string) : Py.split (Py.strip s) = Py.split s.
Proof.
  unfold Py.strip. unfold Py.split at 1. rewrite split_go_rstrip.
  apply split_lstrip.
Qed.

Lemma parse_command_split (line : string) :
  parse_command line
  = match Py.split line with
    | [] => ("", [])
    | command :: args => (command, args)
    end.
Proof. unfold parse_command. by rewrite split_strip. Qed.

Lemma parse_command_prefix (cmd x : string) :
  Py.is_word cmd = true →
  parse_command (cmd +:+ " " +:+ x) = (cmd, Py.split x).
Proof.
  intros Hcmd. by rewrite parse_command_split, split_word_space.
Qed.

Lemma is_empty_rev_app (a b : string) :
  Py.is_empty (String.rev_app a b) = Py.is_empty a && Py.is_empty b.
Proof.
  revert b. induction a as [|c a IH]; intros b; [done|].
  cbn [String.rev_app]. rewrite IH. cbn. by rewrite andb_false_r.
Qed.

Lemma no_space_rev_app (a b : string) :
  Py.no_space (String.rev_app a b) = Py.no_space a && Py.no_space b.
Proof.
  revert b. induction a as [|c a IH]; intros b; [done|].
  cbn [String.rev_app Py.no_space]. rewrite IH. cbn [Py.no_space].
  by destruct (Py.isspace c), (Py.no_space a), (Py.no_space b).
Qed.

Lemma is_word_rev (acc : string) :
  Py.is_word acc = true → Py.is_word (String.rev acc) = true.
Proof.
  unfold Py.is_word, String.rev.
  rewrite is_empty_rev_app, no_space_rev_app. cbn.
  by rewrite !andb_true_r.
Qed.

Lemma split_go_words (cur : option string) (s : string) :
  (∀ acc, cur = Some acc → Py.is_word acc = true) →
  Forall (λ w, Py.is_word w = true) (Py.split_go cur s).
Proof.
  revert cur. induction s as [|c s IH]; intros cur Hcur; cbn [Py.split_go].
  - destruct cur as [acc|]; cbn; [|done].
    constructor; [|done]. by apply is_word_rev, Hcur.
  - destruct (Py.isspace c) eqn:Hc.
    + apply Forall_app. split; [|by apply IH].
      destruct cur as [acc|]; cbn; [|done].
      constructor; [|done]. by apply is_word_rev, Hcur.
    + apply IH. intros acc [= <-]. unfold Py.is_word. cbn [Py.is_empty Py.no_space].
      rewrite Hc. cbn. destruct cur as [acc|]; cbn; [|done].
      pose proof (Hcur acc eq_refl) as Hacc.
      by apply andb_prop in Hacc as [_ Hacc].
Qed.

Lemma split_words (s : string) :
  Forall (λ w, Py.is_word w = true) (Py.split s).
Proof. by apply split_go_words. Qed.

Lemma split_go_some (acc s : string) : Py.split_go (Some acc) s ≠ [].
Proof.
  revert acc. induction s as [|c s IH]; intros acc; cbn [Py.split_go]; [done|].
  destruct (Py.isspace c); [done|apply IH].
Qed.

Lemma split_nil (s : string) : Py.split s = [] ↔ Py.all_space s = true.
Proof.
  split; [|apply split_go_all_space].
  unfold Py.split. induction s as [|c s IH]; [done|].
  cbn [Py.split_go Py.all_space]. destruct (Py.isspace c); [done|].
  intros H. by apply split_go_some in H.
Qed.

(** X1. Whitespace before and after a line does not change what
    [parse_command] makes of it. *)
Theorem parse_ignores_surrounding_space (a line b : string) :
  Py.all_space a = true → Py.all_space b = true →
  parse_command (a +:+ line +:+ b) = parse_command line.
Proof.
  intros Ha Hb. rewrite !parse_command_split. unfold Py.split.
  by rewrite split_go_leading, split_go_trailing.
Qed.

Lemma parse_ignores_surrounding_space_witness :
  parse_command ("  " +:+ "rm  -r  old" +:+ " ") = ("rm", ["-r"; "old"]).
Proof.
  rewrite (parse_ignores_surrounding_space "  " "rm  -r  old" " ");
    vm_compute; reflexivity.
Defined.

Lemma parse_tokens (line : string) :
  (if Py.all_space line then parse_command line = ("", [])
   else Py.is_word (parse_command line).1 = true)
  ∧ Forall (λ a, Py.is_word a = true) (parse_command line).2.
Proof.
  rewrite parse_command_split. pose proof (split_words line) as Hw.
  destruct (Py.all_space line) eqn:Hb.
  - by rewrite (split_go_all_space line Hb : Py.split line = []).
  - destruct (Py.split line) as [|n args] eqn:Hs.
    + apply split_nil in Hs. congruence.
    + by apply Forall_cons in Hw as [Hn Hargs].
Qed.

(** X2. The command name and the arguments that [parse_command] returns
    are tokens: not empty, no whitespace in them. The one exception is
    the empty name of a blank line, which comes with no argument. *)
Theorem parse_command_tokens (line : string) :
  (if Py.all_space line then parse_command line = ("", [])
   else Py.is_word (parse_command line).1 = true)
  ∧ Forall (λ a, Py.is_word a = true) (parse_command line).2.
Proof. apply parse_tokens. Qed.

(** X3. Only the tokens of a line count: the name and the arguments of a
    line that is not blank, joined again by single spaces, parse to the
    same name and arguments. *)
Theorem parse_command_normal_form (line : string) :
  Py.all_space line = false →
  parse_command
    (Py.join " " ((parse_command line).1 :: (parse_command line).2))
  = parse_command line.
Proof.
  intros Hb. pose proof (parse_tokens line) as [Hn Hargs].
  rewrite Hb in Hn.
  destruct (parse_command line) as [n args]. by apply parse_command_join.
Qed.

Lemma parse_command_normal_form_witness :
  parse_command (Py.join " " ["echo"; "a"; "b"])
  = parse_command "  echo   a  b ".
Proof.
  apply (parse_command_normal_form "  echo   a  b "). vm_compute. reflexivity.
Defined.

(** X4. A line made of a command name, one space and any text is parsed
    into that name and the tokens of the text. *)
Theorem parse_command_after_name (cmd text : string) :
  Py.is_word cmd = true →
  parse_command (cmd +:+ " " +:+ text) = (cmd, Py.split text).
Proof. apply parse_command_prefix. Qed.

Lemma parse_command_after_name_witness :
  parse_command ("cat" +:+ " " +:+ " a.txt  b.txt ") = ("cat", ["a.txt"; "b.txt"]).
Proof. apply (parse_command_after_name "cat" " a.txt  b.txt "). reflexivity. Defined.

(** ** Quoting *)

Lemma str_length_app (a b : string) :
  String.length (a +:+ b) = (String.length a + String.length b)%nat.
Proof. induction a as [|c a IH]; [done|]. rewrite app_cons. cbn. by rewrite IH. Qed.

Lemma length_escape (s : string) :
  (String.length s ≤ String.length (Shlex.escape s))%nat.
Proof.
  induction s as [|c s IH]; [done|]. cbn [Shlex.escape].
  destruct (Ascii.eqb c Shlex.squote).
  - rewrite str_length_app. cbn. lia.
  - cbn. lia.
Qed.

Lemma no_space_app (a b : string) :
  Py.no_space (a +:+ b) = Py.no_space a && Py.no_space b.
Proof.
  induction a as [|c a IH]; [done|]. rewrite app_cons. cbn [Py.no_space].
  by rewrite IH, andb_assoc.
Qed.

Lemma no_space_escape (s : string) :
  Py.no_space s = true → Py.no_space (Shlex.escape s) = true.
Proof.
  induction s as [|c s IH]; [done|]. cbn [Py.no_space Shlex.escape].
  intros [Hc Hs]%andb_prop.
  destruct (Ascii.eqb c Shlex.squote).
  - rewrite no_space_app, IH by done. reflexivity.
  - cbn [Py.no_space]. by rewrite Hc, IH.
Qed.

Lemma quote_not_blank (s : string) : Py.all_space (Shlex.quote s) = false.
Proof.
  unfold Shlex.quote. destruct s as [|c s]; [done|]. cbn [Py.is_empty].
  destruct (Shlex.all_safe (String c s)) eqn:Hsafe; [|done].
  cbn [Shlex.all_safe] in Hsafe. apply andb_prop in Hsafe as [Hc _].
  cbn [Py.all_space]. by rewrite (safe_not_space c Hc).
Qed.

(** X5. The composed line gives the slot back as the one argument
    exactly when the slot is not empty and made of characters that
    [shlex.quote] leaves alone (letters, digits and [_@%+=:,./-]): any
    other slot reaches the command changed or in pieces. *)
Theorem slot_round_trip_iff (cmd slot : string) :
  Py.is_word cmd = true →
  parse_command (cmd +:+ " " +:+ Shlex.quote slot) = (cmd, [slot])
  ↔ Py.is_empty slot = false ∧ Shlex.all_safe slot = true.
Proof.
  intros Hcmd. split; [|intros []; by apply safe_slot_round_trip].
  rewrite parse_command_prefix by done. intros [= Hsplit].
  destruct slot as [|c slot]; [done|]. split; [done|].
  destruct (Shlex.all_safe (String c slot)) eqn:Hsafe; [done|exfalso].
  pose proof (split_words (Shlex.quote (String c slot))) as Hw.
  rewrite Hsplit in Hw. apply Forall_cons in Hw as [Hw _].
  apply andb_prop in Hw as [_ Hns].
  unfold Shlex.quote in Hsplit. cbn [Py.is_empty] in Hsplit.
  rewrite Hsafe in Hsplit.
  rewrite split_word in Hsplit.
  - apply (f_equal (fmap String.length)) in Hsplit.
    cbn [fmap list_fmap] in Hsplit. injection Hsplit as Hq.
    rewrite !str_length_app in Hq.
    pose proof (length_escape (String c slot)). cbn in Hq, H. lia.
  - unfold Py.is_word. rewrite !no_space_app, no_space_escape by done.
    reflexivity.
Qed.

Lemma slot_round_trip_iff_witness :
  parse_command ("mkdir" +:+ " " +:+ Shlex.quote "My-Projects_2/src")
  = ("mkdir", ["My-Projects_2/src"]).
Proof.
  apply (slot_round_trip_iff "mkdir" "My-Projects_2/src"); [reflexivity|].
  split; reflexivity.
Defined.

(** X6. Whatever the slot, the line a delegating adapter composes
    carries the adapter's command name and at least one argument: an
    utterance never reaches [mkdir], [touch], [cat] or [rm] without an
    operand. *)
Theorem adapter_line_has_argument (cmd slot : string) :
  Py.is_word cmd = true →
  ∃ a rest, parse_command (cmd +:+ " " +:+ Shlex.quote slot) = (cmd, a :: rest).
Proof.
  intros Hcmd. rewrite parse_command_prefix by done.
  destruct (Py.split (Shlex.quote slot)) as [|a rest] eqn:Hs; [|by eauto].
  apply split_nil in Hs. by rewrite quote_not_blank in Hs.
Qed.

Lemma adapter_line_has_argument_witness :
  ∃ a rest, parse_command ("rm" +:+ " " +:+ Shlex.quote "") = ("rm", a :: rest).
Proof. apply (adapter_line_has_argument "rm" ""). reflexivity. Defined.

(** ** The registry and the commands of [terminal.py] *)

Section Registry.
Context {W : Type} `{!OS W}.

Lemma register_lookup_name (cs : list (Command W))
    (commands : gmap string (Command W)) (n : string) :
  n ∉ name <$> cs →
  foldl (λ commands c, register_command c commands) commands cs !! n
  = commands !! n.
Proof.
  revert commands. induction cs as [|c cs IH]; intros commands Hn; [done|].
  cbn [foldl]. rewrite fmap_cons in Hn. apply not_elem_of_cons in Hn as [Hc Hn].
  rewrite IH by done. unfold register_command. by rewrite lookup_insert_ne.
Qed.

(** X7. The registry of [Terminal] holds the fifteen command names and
    nothing else, and every name is bound to the command that carries
    it. *)
Theorem registry_names (n : string) :
  match register_commands (W:=W) !! n with
  | Some c =>
      name c = n
      ∧ n ∈ ["pwd"; "ls"; "cd"; "mkdir"; "rm"; "touch"; "cat"; "echo"; "ps";
             "top"; "df"; "history"; "clear"; "exit"; "help"]
  | None =>
      n ∉ ["pwd"; "ls"; "cd"; "mkdir"; "rm"; "touch"; "cat"; "echo"; "ps";
           "top"; "df"; "history"; "clear"; "exit"; "help"]
  end.
Proof.
  destruct (decide (n ∈ ["pwd"; "ls"; "cd"; "mkdir"; "rm"; "touch"; "cat";
                         "echo"; "ps"; "top"; "df"; "history"; "clear"; "exit";
                         "help"])) as [Hin|Hout].
  - repeat (apply elem_of_cons in Hin as [->|Hin];
            [vm_compute (_ !! _); split; [reflexivity|set_solver]|]).
    inversion Hin.
  - unfold register_commands. by rewrite register_lookup_name, lookup_empty.
Qed.

Lemma for_each_ok (body : string → list string → M W (list string))
    (paths errors : list string) (st : St W) :
  (∀ p errs st, ∃ errs' st', body p errs st = (Ok errs', st')) →
  ∃ errs' st', for_each body paths errors st = (Ok errs', st').
Proof.
  intros Hbody. revert errors st.
  induction paths as [|p paths IH]; intros errors st; cbn [for_each].
  - by eexists _, _.
  - unfold bind. destruct (Hbody p errors st) as (errs' & st' & ->).
    apply IH.
Qed.

Lemma rm_one_ok (recursive force : bool) (path : string)
    (errors : list string) (st : St W) :
  ∃ errs' st', rm_one recursive force path errors st = (Ok errs', st').
Proof.
  unfold rm_one, try_except, bind, os_query, os_call, ret.
  destruct (os_path_isdir path (world st)).
  - destruct recursive; [|by eexists _, _].
    destruct (shutil_rmtree path (world st)) as [[e|] w]; [|by eexists _, _].
    destruct (exn_cls e), force; by eexists _, _.
  - destruct (os_remove path (world st)) as [[e|] w]; [|by eexists _, _].
    destruct (exn_cls e), force; by eexists _, _.
Qed.

(** X8. [rm] never raises: whatever the operating system answers, every
    failure becomes a line of the text it returns. *)
Theorem rm_never_raises (args : list string) (st : St W) :
  ∃ text st', RmCommand_execute args st = (Ok text, st').
Proof.
  unfold RmCommand_execute. destruct args as [|a args]; [by eexists _, _|].
  unfold bind.
  edestruct (for_each_ok (rm_one (Py.str_in "-r" (a :: args)
                                  || Py.str_in "--recursive" (a :: args))
                                 (Py.str_in "-f" (a :: args)
                                  || Py.str_in "--force" (a :: args))))
    as (errs & st' & ->); [intros; apply rm_one_ok|].
  by eexists _, _.
Qed.

(** X9. Arguments that begin with a dash are options to [rm], never
    paths: a call with nothing but such arguments removes nothing,
    reports nothing and returns the empty text. *)
Theorem rm_only_options (args : list string) (st : St W) :
  args ≠ [] →
  Forall (λ a, Py.startswith a "-" = true) args →
  RmCommand_execute args st = (Ok "", st).
Proof.
  intros Hne Hdash. unfold RmCommand_execute.
  destruct args as [|a args]; [done|].
  replace (filter _ (a :: args)) with (@nil string); [done|].
  symmetry. clear Hne. induction Hdash as [|x l Hx _ IH]; [done|].
  rewrite filter_cons_False by (rewrite Hx; done). done.
Qed.

(** X10. [mkdir] turns three classes of exception into messages; one of
    another class at the first path leaves the command at once, with no
    attempt at the paths that follow. *)
Theorem mkdir_stops_at_other_exception (path : string) (rest : list string)
    (st : St W) (e : exn) (w : W) :
  Py.str_in "-p" (path :: rest) = false →
  Py.str_in "--parents" (path :: rest) = false →
  os_mkdir path (world st) = (Some e, w) →
  exn_cls e ∉ [FileExistsError; FileNotFoundError; PermissionError] →
  MkdirCommand_execute (path :: rest) st = (Raise e, set_world w st).
Proof.
  intros Hp Hparents Hmk Hcls. unfold MkdirCommand_execute.
  rewrite Hp, Hparents. cbn [orb for_each].
  unfold bind at 1. unfold bind at 1.
  unfold mkdir_one, try_except, bind, os_call, ret, raise. rewrite Hmk.
  destruct (exn_cls e); try done; exfalso; apply Hcls; set_solver.
Qed.

End Registry.

Lemma rm_only_options_witness :
  RmCommand_execute ["-r"; "-f"] Sim.st0 = (Ok "", Sim.st0).
Proof.
  apply (rm_only_options ["-r"; "-f"] Sim.st0); [done|].
  repeat constructor.
Defined.

(** ** The natural-language command inside [AITerminal] *)

Section Knot.
Context {W : Type} `{!OS W}.

(** The handlers call the terminal on lines of [Terminal]'s own
    commands only, so two terminals that agree on such lines give the
    handlers the same behaviour. *)
Lemma call_agrees (t1 t2 : string → M W string) (h : handler)
    (groups : list string) (st : St W) :
  (∀ line st,
     Py.str_in (parse_command line).1 ["nlp"; "autocomplete"] = false →
     t1 line st = t2 line st) →
  call t1 h groups st = call t2 h groups st.
Proof.
  intros Hagree.
  assert (∀ cmd x st, Py.is_word cmd = true →
            Py.str_in cmd ["nlp"; "autocomplete"] = false →
            t1 (cmd +:+ " " +:+ x) st = t2 (cmd +:+ " " +:+ x) st) as Hline.
  { intros cmd x st' Hcmd Hown. apply Hagree.
    by rewrite parse_command_prefix. }
  assert (∀ a, _remove_item t1 a st = _remove_item t2 a st) as Hrm.
  { intros a. unfold _remove_item, bind, os_query. cbn zeta.
    destruct (os_path_isdir _ _).
    - exact (Hline "rm" ("-r " +:+ _) st eq_refl eq_refl).
    - exact (Hline "rm" _ st eq_refl eq_refl). }
  assert (∀ a, _show_command_help t1 a st = _show_command_help t2 a st)
    as Hhelp.
  { intros a. unfold _show_command_help.
    destruct (Re.search _ _) as [[|cmd [|? ?]]|]; try (by apply Hagree).
    exact (Hline "help" _ st eq_refl eq_refl). }
  destruct h, groups as [|a [|b [|? ?]]]; cbn [call]; try reflexivity;
    first [ apply Hrm | apply Hhelp
          | exact (Hline "mkdir" _ st eq_refl eq_refl)
          | exact (Hline "touch" _ st eq_refl eq_refl)
          | exact (Hline "ls" _ st eq_refl eq_refl)
          | exact (Hline "cat" _ st eq_refl eq_refl)
          | exact (Hline "cd" _ st eq_refl eq_refl)
          | by apply Hagree ].
Qed.

Lemma nlp_execute_agrees (t1 t2 : string → M W string) (args : list string)
    (st : St W) :
  (∀ line st,
     Py.str_in (parse_command line).1 ["nlp"; "autocomplete"] = false →
     t1 line st = t2 line st) →
  NLP.execute t1 args st = NLP.execute t2 args st.
Proof.
  intros Hagree. unfold NLP.execute.
  destruct (Py.is_empty _); [done|]. destruct (Py.str_in _ _); [done|].
  destruct (first_match _ _) as [[h groups]|]; [|done].
  by apply call_agrees.
Qed.

Lemma str_in_two_false (n a b : string) :
  Py.str_in n [a; b] = false → n ≠ a ∧ n ≠ b.
Proof.
  cbn. rewrite orb_false_r. intros [Ha Hb]%orb_false_elim.
  split; intros ->; by rewrite String.eqb_refl in *.
Qed.

(** X11. In the source the natural-language command is constructed with
    the [AITerminal] that registers it, so the dispatcher is defined in
    terms of itself. The dispatcher of the embedding is a solution of that
    equation: with the natural-language command calling it back, it
    dispatches every line as it does. *)
Theorem ai_terminal_fixed_point (line : string) (st : St W) :
  execute_command (ai_commands ai_execute_command) line st
  = ai_execute_command line st.
Proof.
  unfold ai_execute_command at 2. rewrite !execute_command_cases.
  destruct (Py.all_space line); [done|].
  unfold ai_commands, register_command.
  cbn [name AutoCompleteCommand builtin NLPCommand].
  destruct (decide ("autocomplete" = (parse_command line).1)) as [<-|Hauto].
  { by rewrite !lookup_insert_eq. }
  rewrite !(lookup_insert_ne _ "autocomplete") by done.
  destruct (decide ("nlp" = (parse_command line).1)) as [<-|Hnlp].
  - rewrite !lookup_insert_eq. cbn [Term.execute].
    apply nlp_execute_agrees. intros l st' Hown.
    apply str_in_two_false in Hown as [? ?].
    by apply ai_dispatch_own.
  - by rewrite !lookup_insert_ne.
Qed.

End Knot.

(** ** Groups and arities *)

Section Groups.
Context {R : Type}.

Lemma rep_some (f : ascii → bool) (s : string) (k : string → option R)
    (x : R) :
  Re.rep f s k = Some x → ∃ s', k s' = Some x.
Proof.
  induction s as [|c s IH]; cbn [Re.rep]; [by eauto|].
  destruct (f c); [|by eauto].
  destruct (Re.rep f s k) as [y|] eqn:Hrep; [|by eauto].
  intros [= ->]. by apply IH.
Qed.

(** A match of a pattern with a fixed number of groups hands on that
    many groups more. *)
Lemma m_group_count (r : Re.regex) :
  ∀ (n : nat) (s : string) (caps : list string)
    (k : string → list string → option R) (x : R),
    Assist.group_count r = Some n →
    Re.m r s caps k = Some x →
    ∃ s' g, length g = n ∧ k s' (caps ++ g) = Some x.
Proof.
  induction r as [p|r1 IH1 r2 IH2|r1 IH1 r2 IH2|r1 IH1|c|c|r1 IH1|r1 IH1];
    intros n s caps k x Hn Hm; cbn [Re.m Assist.group_count] in *.
  - injection Hn as <-. destruct (Re.lit p s) as [s'|]; [|done].
    exists s', []. by rewrite app_nil_r.
  - destruct (Assist.group_count r1) as [a|]; [|done].
    destruct (Assist.group_count r2) as [b|]; [|done]. injection Hn as <-.
    destruct (IH1 a _ _ _ _ eq_refl Hm) as (s1 & g1 & Hg1 & Hm2).
    destruct (IH2 b _ _ _ _ eq_refl Hm2) as (s2 & g2 & Hg2 & Hk).
    exists s2, (g1 ++ g2). rewrite length_app, app_assoc. split; [lia|done].
  - destruct (Assist.group_count r1) as [a|]; [|done].
    destruct (Assist.group_count r2) as [b|]; [|done].
    destruct (Nat.eqb_spec a b) as [<-|]; [|done]. injection Hn as <-.
    destruct (Re.m r1 s caps k) as [y|] eqn:H1.
    + injection Hm as ->. by apply (IH1 a _ _ _ _ eq_refl H1).
    + by apply (IH2 a _ _ _ _ eq_refl Hm).
  - destruct (Assist.group_count r1) as [[|a]|]; [|done..]. injection Hn as <-.
    destruct (Re.m r1 s caps k) as [y|] eqn:H1.
    + injection Hm as ->. by apply (IH1 O _ _ _ _ eq_refl H1).
    + exists s, []. by rewrite app_nil_r.
  - injection Hn as <-. apply rep_some in Hm as [s' Hk].
    exists s', []. by rewrite app_nil_r.
  - injection Hn as <-. destruct s as [|a s]; [done|].
    destruct (Re.in_class c a); [|done].
    apply rep_some in Hm as [s' Hk]. exists s', []. by rewrite app_nil_r.
  - by apply (IH1 n _ _ _ _ Hn Hm).
  - destruct (Assist.group_count r1) as [a|]; [|done]. injection Hn as <-.
    destruct (IH1 a _ _ _ _ eq_refl Hm) as (s' & g & Hg & Hk).
    exists s', (g ++ [Re.consumed s s']).
    rewrite length_app, app_assoc. split; [cbn; lia|done].
Qed.
End Groups.

Lemma search_group_count (r : Re.regex) (n : nat) (s : string)
    (groups : list string) :
  Assist.group_count r = Some n →
  Re.search r s = Some groups → length groups = n.
Proof.
  intros Hn. induction s as [|c s IH]; cbn [Re.search]; unfold Re.match_here;
    destruct (Re.m r _ [] _) as [g|] eqn:Hm; try done.
  all: try (intros [= <-];
            destruct (m_group_count r n _ _ _ _ Hn Hm) as (s' & g' & Hg & Hk);
            by simplify_eq/=).
Qed.

Lemma command_patterns_arities :
  Forall (λ ph, ∃ n, Assist.group_count ph.1 = Some n
                     ∧ Assist.accepts ph.2 n = true) command_patterns.
Proof.
  repeat (apply Forall_cons_2; [eexists; split; vm_compute; reflexivity|]).
  apply Forall_nil_2.
Qed.

(** X12. A pattern always delivers the number of slots its handler
    takes: the call of a handler by [execute] cannot fail for a wrong
    number of arguments. *)
Theorem handler_gets_its_arity (query : string) (h : handler)
    (groups : list string) :
  first_match command_patterns query = Some (h, groups) →
  Assist.accepts h (length groups) = true.
Proof.
  pose proof command_patterns_arities as Har.
  induction Har as [|[p h'] rest (n & Hn & Hacc) _ IH]; [done|].
  cbn [first_match]. destruct (Re.search p query) as [g|] eqn:Hs; [|done].
  intros [= <- <-]. by rewrite (search_group_count p n query g Hn Hs).
Qed.

Lemma handler_gets_its_arity_witness :
  Assist.accepts H_move_item (length ["a.txt"; "b"]) = true.
Proof.
  apply (handler_gets_its_arity "move a.txt to b"). vm_compute. reflexivity.
Defined.

(** ** Help for one command *)

Lemma isword_not_space (c : ascii) : Py.isword c = true → Py.isspace c = false.
Proof. by destruct c as [[] [] [] [] [] [] [] []]. Qed.

Section RepWord.
Context {R : Type}.

Lemma rep_word (s : string) (k : string → option R) (x : R) :
  Re.rep Py.isword s k = Some x →
  ∃ p s', s = p +:+ s' ∧ Py.no_space p = true ∧ k s' = Some x.
Proof.
  induction s as [|c s IH]; cbn [Re.rep].
  - intros Hk. by exists "", "".
  - destruct (Py.isword c) eqn:Hc; [|intros Hk; by exists "", (String c s)].
    destruct (Re.rep Py.isword s k) as [y|] eqn:Hrep.
    + intros [= ->]. destruct (IH eq_refl) as (p & s' & -> & Hp & Hk).
      exists (String c p), s'. split_and!; [done| |done].
      cbn [Py.no_space]. by rewrite (isword_not_space c Hc), Hp.
    + intros Hk. by exists "", (String c s).
Qed.
End RepWord.

Lemma consumed_app (p s' : string) : Re.consumed (p +:+ s') s' = p.
Proof.
  unfold Re.consumed. rewrite str_length_app.
  replace (String.length p + String.length s' - String.length s')%nat
    with (String.length p) by lia.
  induction p as [|c p IH]; [by destruct s'|].
  rewrite app_cons. cbn. by rewrite IH.
Qed.

Lemma search_first_word (s : string) (groups : list string) :
  Re.search (Re.Grp (Re.Plus Re.CWord)) s = Some groups →
  ∃ w, groups = [w] ∧ Py.is_word w = true.
Proof.
  induction s as [|c s IH]; cbn [Re.search]; unfold Re.match_here;
    cbn [Re.m]; [done|].
  cbn [Re.in_class]. destruct (Py.isword c) eqn:Hc; [|apply IH].
  destruct (Re.rep _ _ _) as [g|] eqn:Hrep; [|apply IH].
  intros [= <-]. apply rep_word in Hrep as (p & s' & -> & Hp & [= <-]).
  exists (String c p). split.
  - cbn [app]. f_equal. exact (consumed_app (String c p) s').
  - unfold Py.is_word. cbn [Py.is_empty Py.no_space].
    by rewrite (isword_not_space c Hc), Hp.
Qed.

(** X13. A request for help on a command dispatches the line [help]
    alone or [help] with exactly one argument, a run of word characters
    taken from the request: the text of the request cannot pass further
    arguments to [help]. *)
Theorem command_help_one_token {W : Type} `{!OS W}
    (terminal_execute_command : string → M W string) (command : string)
    (st : St W) :
  ∃ line,
    _show_command_help terminal_execute_command command st
    = terminal_execute_command line st
    ∧ (parse_command line = ("help", [])
       ∨ ∃ w, Py.is_word w = true ∧ parse_command line = ("help", [w])).
Proof.
  unfold _show_command_help.
  destruct (Re.search _ _) as [groups|] eqn:Hs.
  - apply search_first_word in Hs as (w & -> & Hw).
    exists ("help " +:+ w). split; [done|right]. exists w. split; [done|].
    change ("help " +:+ w) with ("help" +:+ " " +:+ w).
    by rewrite (parse_command_prefix "help" w eq_refl), split_word.
  - exists "help". split; [done|by left].
Qed.

(** ** The history listing *)

Lemma decimal_stops (acc : N) (p q : string) (c : ascii) :
  Py.between 48 57 c = false →
  Shell.decimal acc (p +:+ String c q) = None.
Proof.
  intros Hc. revert acc. induction p as [|a p IH]; intros acc.
  - change ("" +:+ String c q) with (String c q).
    cbn [Shell.decimal]. by rewrite Hc.
  - rewrite app_cons. cbn [Shell.decimal]. by destruct (Py.between 48 57 a).
Qed.

(** X14. [history N] lists the last [N] entries, or all of them when
    there are fewer, and numbers the lines it shows from one, not by
    their place in the history; [history 0] lists the whole history. *)
Theorem history_count (a : string) (rest history : list string) (n : N) :
  Shell.isdigit a = true → Shell.int a = Some n →
  ∃ shown,
    Shell.HistoryCommand_execute (a :: rest) history
    = Shell.Text (Py.join nl (Shell.numbered shown))
    ∧ shown `suffix_of` history
    ∧ length shown
      = (if n =? 0 then length history
         else Nat.min (N.to_nat n) (length history))
    ∧ ∀ i cmd, shown !! i = Some cmd →
        Shell.numbered shown !! i
        = Some (Shell.fmt4 (S i) +:+ "  " +:+ cmd).
Proof.
  intros Hd Hint. exists (Shell.last_entries n history).
  unfold Shell.HistoryCommand_execute. rewrite Hd, Hint.
  split_and!; [done|..].
  - unfold Shell.last_entries. destruct (n =? 0); [done|apply suffix_drop].
  - unfold Shell.last_entries. destruct (n =? 0); [done|].
    rewrite length_drop. lia.
  - intros i cmd Hi. unfold Shell.numbered.
    by rewrite list_lookup_imap, Hi.
Qed.

Lemma history_count_witness :
  ∃ shown,
    Shell.HistoryCommand_execute ["2"] ["ls"; "cd /tmp"; "pwd"; "history 2"]
    = Shell.Text (Py.join nl (Shell.numbered shown))
    ∧ length shown = 2%nat.
Proof.
  destruct (history_count "2" [] ["ls"; "cd /tmp"; "pwd"; "history 2"] 2)
    as (shown & Hexec & _ & Hlen & _); [reflexivity..|].
  exists shown. split; [exact Hexec|exact Hlen].
Defined.

(** X15. An argument that [isdigit] accepts and that holds a character
    other than a decimal digit, a superscript two for one, is handed to
    [int], which raises [ValueError]: the command leaves by an
    exception. *)
Theorem history_superscript_raises (p q : string) (c : ascii)
    (rest history : list string) :
  Shell.isdigit (p +:+ String c q) = true →
  Py.between 48 57 c = false →
  Shell.HistoryCommand_execute ((p +:+ String c q) :: rest) history
  = Shell.ValueError.
Proof.
  intros Hd Hc. unfold Shell.HistoryCommand_execute. rewrite Hd.
  unfold Shell.int. rewrite decimal_stops by done.
  by destruct (_ <? _)%nat.
Qed.

Lemma history_superscript_raises_witness :
  Shell.HistoryCommand_execute ["1" +:+ String (ascii_of_N 178) ""] ["ls"]
  = Shell.ValueError.
Proof.
  apply (history_superscript_raises "1" "" (ascii_of_N 178) [] ["ls"]);
    reflexivity.
Defined.

(** ** The prompt *)

Lemma str_prefix_app (p s : string) : String.prefix p (p +:+ s) = true.
Proof.
  induction p as [|c p IH]; [by destruct s|].
  rewrite app_cons. cbn. by destruct (ascii_dec c c).
Qed.

Lemma substring_all (s : string) : String.substring 0 (String.length s) s = s.
Proof. induction s as [|c s IH]; [done|]. cbn. by rewrite IH. Qed.

Lemma after_app (p s : string) : Shell.after (String.length p) (p +:+ s) = s.
Proof.
  unfold Shell.after. rewrite str_length_app.
  replace (String.length p + String.length s - String.length p)%nat
    with (String.length s) by lia.
  induction p as [|c p IH]; [apply substring_all|].
  rewrite app_cons. cbn. apply IH.
Qed.

(** X16. The prompt shows [~] for the text of the home directory at the
    start of the working directory, whatever follows it: the home itself,
    a path below it, and also a sibling whose name only begins like the
    home. *)
Theorem prompt_abbreviates_home (username hostname home rest : string) :
  Shell.get_prompt username hostname home (home +:+ rest)
  = username +:+ "@" +:+ hostname +:+ ":" +:+ "~" +:+ rest +:+ "$ ".
Proof.
  unfold Shell.get_prompt, Py.startswith. by rewrite str_prefix_app, after_app.
Qed.

(** ** The main loop *)

Section Loop.
Context {W : Type} `{!OS W}.
Variables username hostname home : string.

Abbreviation loop := (Shell.loop username hostname home).
Abbreviation turn := (Shell.turn username hostname home).

Lemma loop_stopped (commands : gmap string (Command W))
    (inputs : list Shell.input_event) (st : St W) :
  running st = false → loop commands inputs st = ([], st).
Proof. intros Hr. destruct inputs; cbn; by rewrite Hr. Qed.

Lemma loop_app (commands : gmap string (Command W))
    (a b : list Shell.input_event) (st : St W) :
  loop commands (a ++ b) st
  = (let '(out, st') := loop commands a st in
     let '(out', st'') := loop commands b st' in
     (out ++ out', st'')).
Proof.
  revert st. induction a as [|ev a IH]; intros st.
  - cbn [app]. destruct (running st) eqn:Hr.
    + cbn [Shell.loop]. rewrite Hr. by destruct (loop commands b st).
    + by rewrite !loop_stopped.
  - cbn [app Shell.loop]. destruct (running st) eqn:Hr.
    + destruct (turn commands ev st) as [o st1]. rewrite IH.
      destruct (loop commands a st1) as [o2 st2].
      destruct (loop commands b st2) as [o3 st3]. by rewrite app_assoc.
    + by rewrite loop_stopped.
Qed.

(** X17. Once the loop has stopped, by [exit] or at the end of the
    input, nothing that is typed afterwards is read or run. *)
Theorem loop_ignores_input_after_stop (commands : gmap string (Command W))
    (a b : list Shell.input_event) (st : St W) :
  running (loop commands a st).2 = false →
  loop commands (a ++ b) st = loop commands a st.
Proof.
  intros Hstop. rewrite loop_app.
  destruct (loop commands a st) as [o st']. cbn in Hstop.
  by rewrite loop_stopped, app_nil_r.
Qed.

Lemma lookup_exit : register_commands (W:=W) !! "exit" = Some ExitCommand.
Proof. vm_compute. reflexivity. Qed.

Lemma lookup_echo : register_commands (W:=W) !! "echo" = Some EchoCommand.
Proof. vm_compute. reflexivity. Qed.

Lemma named_not_blank (line n : string) :
  (parse_command line).1 = n → n ≠ "" → Py.all_space line = false.
Proof.
  intros Hn Hne. destruct (Py.all_space line) eqn:Hb; [|done].
  rewrite parse_command_split, (split_go_all_space line Hb : Py.split line = [])
    in Hn. by subst.
Qed.

(** X18. A line whose command is [exit], whatever its arguments, is
    recorded in the history, answered with [Goodbye!] and ends the loop:
    the inputs that follow are left alone. *)
Theorem exit_ends_the_loop (line : string) (rest : list Shell.input_event)
    (st : St W) :
  running st = true →
  (parse_command line).1 = "exit" →
  loop register_commands (Shell.Line line :: rest) st
  = ([Shell.Prompt (Shell.get_prompt username hostname home
                      (os_getcwd (world st)));
      Shell.Print "Goodbye!"],
     Shell.set_running false (history_append line st)).
Proof.
  intros Hr Hexit. cbn [Shell.loop]. rewrite Hr. cbn [Shell.turn].
  rewrite execute_command_cases, (named_not_blank line "exit") by done.
  rewrite Hexit, lookup_exit. cbn [Term.execute ExitCommand ret].
  change ("__EXIT__" =? "__EXIT__")%string with true. cbn beta iota zeta.
  rewrite loop_stopped by done. by rewrite app_nil_r.
Qed.

(** X19. The exit signal is a text like any other: a command that
    returns that text ends the loop, and [echo __EXIT__] does. *)
Theorem echo_can_end_the_loop (line : string) (rest : list Shell.input_event)
    (st : St W) :
  running st = true →
  parse_command line = ("echo", ["__EXIT__"]) →
  running (loop register_commands (Shell.Line line :: rest) st).2 = false
  ∧ (loop register_commands (Shell.Line line :: rest) st).1
    = [Shell.Prompt (Shell.get_prompt username hostname home
                       (os_getcwd (world st)));
       Shell.Print "Goodbye!"].
Proof.
  intros Hr Hecho. cbn [Shell.loop]. rewrite Hr. cbn [Shell.turn].
  rewrite execute_command_cases, (named_not_blank line "echo")
    by (by rewrite ?Hecho).
  rewrite Hecho. cbn [fst snd]. rewrite lookup_echo.
  cbn [Term.execute EchoCommand ret Py.join].
  change ("__EXIT__" =? "__EXIT__")%string with true. cbn beta iota zeta.
  by rewrite loop_stopped.
Qed.

Lemma turn_history (ev : Shell.input_event) (st : St W) :
  command_history (turn register_commands ev st).2
  = command_history st
    ++ filter (λ l, Py.all_space l = false) (Shell.lines [ev]).
Proof.
  destruct ev as [l| |]; cbn [Shell.turn];
    [|change (Shell.lines [_]) with (@nil string); by rewrite app_nil_r..].
  change (Shell.lines [Shell.Line l]) with [l].
  rewrite execute_command_cases.
  destruct (Py.all_space l) eqn:Hb.
  { rewrite filter_cons_False, filter_nil by (by rewrite Hb).
    cbn. by rewrite app_nil_r. }
  rewrite filter_cons_True, filter_nil by done.
  destruct (register_commands !! _) as [c|] eqn:Hc.
  - pose proof (register_commands_keep _ _ Hc (parse_command l).2
                  (history_append l st)) as Hkeep.
    destruct (Term.execute c _ _) as [[out|e] st']; cbn in Hkeep; [|done].
    destruct (String.eqb out "__EXIT__"); [done|].
    destruct (String.eqb out "__CLEAR__"); [done|].
    by destruct (Py.is_empty out).
  - destruct (String.eqb _ "__EXIT__"); [done|].
    destruct (String.eqb _ "__CLEAR__"); [done|].
    by destruct (Py.is_empty _).
Qed.

(** X20. The history after a run of [Terminal]'s loop is the history
    before followed by the lines read that are not blank, in the order
    they were typed and each once; every line of the input is among them
    if the loop is still running at the end. *)
Theorem loop_history (inputs : list Shell.input_event) (st : St W) :
  ∃ k, (k ≤ length inputs)%nat
    ∧ command_history (loop register_commands inputs st).2
      = command_history st
        ++ filter (λ l, Py.all_space l = false)
             (Shell.lines (take k inputs))
    ∧ (running (loop register_commands inputs st).2 = true →
       k = length inputs).
Proof.
  revert st. induction inputs as [|ev inputs IH]; intros st.
  - exists O. cbn [Shell.loop]. destruct (running st); cbn;
      by rewrite app_nil_r.
  - destruct (running st) eqn:Hr.
    + cbn [Shell.loop]. rewrite Hr.
      pose proof (turn_history ev st) as Hturn.
      destruct (turn register_commands ev st) as [o st1]. cbn in Hturn.
      destruct (IH st1) as (k & Hk & Hhist & Hall).
      destruct (loop register_commands inputs st1) as [o2 st2].
      cbn [fst snd] in *. exists (S k). split_and!.
      * cbn. lia.
      * rewrite Hhist, Hturn. cbn [take]. unfold Shell.lines.
        change (ev :: take k inputs) with ([ev] ++ take k inputs).
        by rewrite omap_app, filter_app, app_assoc.
      * intros Hrun. cbn. by rewrite Hall.
    + exists O. rewrite loop_stopped by done. cbn. rewrite app_nil_r.
      split_and!; [lia|done|]. intros. congruence.
Qed.

End Loop.

(** ** The route of the web terminal *)

Lemma prefix_inv (p s : string) :
  String.prefix p s = true → ∃ y, s = p +:+ y.
Proof.
  revert s. induction p as [|a p IH]; intros s; [by exists s|].
  destruct s as [|b s]; [done|]. cbn.
  destruct (ascii_dec a b) as [<-|]; [|done].
  intros (y & ->)%IH. by exists y.
Qed.

Section Route.
Context {W : Type} `{!OS W}.
Variables username hostname home : string.

(** X21. A posted command that is not empty and holds whitespace only
    makes the route fail with [IndexError] before the terminal is
    called; the empty command does not. *)
Theorem route_blank_raises (commands : gmap string (Command W))
    (command : string) (st : St W) :
  command ≠ "" → Py.all_space command = true →
  Web.execute_command username hostname home commands command st
  = (Web.IndexError, st).
Proof.
  intros Hne Hb. unfold Web.execute_command, Web.routed.
  destruct command as [|c command]; [done|]. cbn [Py.is_empty].
  by rewrite (split_go_all_space _ Hb : Py.split _ = []).
Qed.

(** X22. A posted text whose first word is no registered command is
    run as a natural-language request: the terminal records the line
    [nlp ] followed by the text, and the natural-language command gets
    the tokens of the text as its arguments. *)
Theorem route_natural_language
    (terminal_execute_command : string → M W string)
    (command first : string) (rest : list string) (st : St W) :
  Py.split command = first :: rest →
  ai_commands terminal_execute_command !! first = None →
  Web.routed (ai_commands terminal_execute_command) command
  = Some ("nlp " +:+ command)
  ∧ Term.execute_command (ai_commands terminal_execute_command)
      ("nlp " +:+ command) st
    = NLP.execute terminal_execute_command (first :: rest)
        (history_append ("nlp " +:+ command) st).
Proof.
  intros Hsplit Hnone. split.
  - unfold Web.routed. destruct command as [|c command]; [done|].
    cbn [Py.is_empty]. rewrite Hsplit, Hnone.
    rewrite bool_decide_eq_false_2 by (by intros [? ?]). cbn [negb andb].
    destruct (Py.startswith (String c command) "nlp ") eqn:Hp; [|done].
    exfalso. apply prefix_inv in Hp as (y & Hy). rewrite Hy in Hsplit.
    change ("nlp " +:+ y) with ("nlp" +:+ " " +:+ y) in Hsplit.
    rewrite split_word_space in Hsplit by done. injection Hsplit as <- _.
    unfold ai_commands, register_command in Hnone.
    cbn [name AutoCompleteCommand builtin NLPCommand] in Hnone.
    by rewrite lookup_insert_ne, lookup_insert_eq in Hnone.
  - rewrite execute_command_cases.
    change ("nlp " +:+ command) with ("nlp" +:+ " " +:+ command).
    rewrite (parse_command_prefix "nlp" command eq_refl), Hsplit.
    cbn [fst snd]. unfold ai_commands, register_command.
    cbn [name AutoCompleteCommand builtin NLPCommand].
    by rewrite lookup_insert_ne, lookup_insert_eq.
Qed.

End Route.

(** ** The completion switch *)

(** X23. The answer of [autocomplete] always names the state it leaves:
    either the argument is refused and the switch keeps its state, or the
    text says [enabled] or [disabled] as the switch now is. A call
    without argument flips the switch, and two of them restore it. *)
Theorem autocomplete_reports_state (args : list string) (enabled : bool) :
  ((Assist.AutoCompleteCommand_execute args enabled).1
     = "Invalid argument. Use 'on' or 'off'."
   ∧ (Assist.AutoCompleteCommand_execute args enabled).2 = enabled
   ∨ (Assist.AutoCompleteCommand_execute args enabled).1
     = "Auto-completion is now "
       +:+ (if (Assist.AutoCompleteCommand_execute args enabled).2
            then "enabled" else "disabled"))
  ∧ (Assist.AutoCompleteCommand_execute []
       (Assist.AutoCompleteCommand_execute [] enabled).2).2 = enabled.
Proof.
  split; [|by destruct enabled].
  unfold Assist.AutoCompleteCommand_execute. destruct args as [|a args].
  - right. by destruct enabled.
  - destruct (Py.str_in _ _); [by right|].
    destruct (Py.str_in _ _); [by right|by left].
Qed.

(** ** Letter case *)







Section Lower.
Context {R R' : Type} (F : R → R').


End Lower.



(** ** The directory listing *)

Section LsFacts.
Context {W : Type} `{!OS W} `{!Listing.Dir W}.

(** X25. [ls] turns a missing directory and a refused one into
    messages; any other failure of [os.listdir] leaves the command as an
    exception. Listing a regular file is such a failure. *)
Theorem ls_raises_other_exceptions (args : list string) (w : W) (e : exn) :
  Listing.os_listdir (Listing.target args) w = Raise e →
  exn_cls e ∉ [FileNotFoundError; PermissionError] →
  Listing.LsCommand_execute args w = Raise e.
Proof.
  intros Hl Hcls. unfold Listing.LsCommand_execute, Listing.listing.
  rewrite Hl. destruct (exn_cls e); try done; exfalso; apply Hcls; set_solver.
Qed.

Lemma decorate_groups (target_dir : string) (w : W) (ds fs : list string) :
  Forall (λ i, Listing.is_dir_in target_dir w i = true) ds →
  Forall (λ i, Listing.is_dir_in target_dir w i = false) fs →
  (λ item, if Listing.is_dir_in target_dir w item then item +:+ "/" else item)
    <$> (ds ++ fs)
  = ((λ d, d +:+ "/") <$> ds) ++ fs.
Proof.
  intros Hds Hfs. rewrite fmap_app. f_equal.
  - induction Hds as [|d ds Hd _ IH]; [done|]. cbn. by rewrite Hd, IH.
  - induction Hfs as [|f fs Hf _ IH]; [done|]. cbn. by rewrite Hf, IH.
Qed.

Lemma sorted_filter_Forall (P : string → Prop) `{!∀ x, Decision (P x)}
    (l : list string) :
  Forall P (merge_sort String.le (filter P l)).
Proof.
  apply Forall_forall. intros x Hx.
  rewrite merge_sort_Permutation in Hx.
  by apply list_elem_of_filter in Hx as [? _].
Qed.

(** X26. The short listing shows the entries of the directory, the
    hidden ones only with [-a] or [--all], each exactly once: first the
    directories in sorted order, each with a slash after its name, then
    the other entries in sorted order. *)
Theorem ls_short_listing (args : list string) (w : W) (items : list string) :
  Listing.os_listdir (Listing.target args) w = Ok items →
  Py.str_in "-l" args = false →
  ∃ ds fs,
    Listing.LsCommand_execute args w
    = Ok (Py.join "  " (((λ d, d +:+ "/") <$> ds) ++ fs))
    ∧ ds ++ fs
      ≡ₚ (if Py.str_in "-a" args || Py.str_in "--all" args then items
          else filter (λ item, Listing.hidden item = false) items)
    ∧ Sorted String.le ds ∧ Sorted String.le fs
    ∧ Forall (λ i, Listing.is_dir_in (Listing.target args) w i = true) ds
    ∧ Forall (λ i, Listing.is_dir_in (Listing.target args) w i = false) fs.
Proof.
  intros Hl Hlong.
  set (shown := if Py.str_in "-a" args || Py.str_in "--all" args then items
                else filter (λ item, Listing.hidden item = false) items).
  exists (merge_sort String.le
            (filter (λ i, Listing.is_dir_in (Listing.target args) w i = true)
               shown)),
         (merge_sort String.le
            (filter (λ i, Listing.is_dir_in (Listing.target args) w i = false)
               shown)).
  split_and!.
  - unfold Listing.LsCommand_execute, Listing.listing. rewrite Hl, Hlong.
    fold shown. unfold Listing.sorted_items.
    by rewrite decorate_groups by apply sorted_filter_Forall.
  - rewrite !merge_sort_Permutation.
    rewrite <- (filter_app_complement
                  (λ i, Listing.is_dir_in (Listing.target args) w i = true)
                  shown) at 3.
    f_equiv. apply reflexive_eq, list_filter_iff. intros x.
    by destruct (Listing.is_dir_in _ _ _).
  - apply Sorted_merge_sort, _.
  - apply Sorted_merge_sort, _.
  - apply sorted_filter_Forall.
  - apply sorted_filter_Forall.
Qed.

(** X27. For a typed path that is an existing directory the completions
    are the entries of that directory joined to its parent, not to the
    directory itself: for [cat Documents] they are the bare names of what
    [Documents] holds. *)
Theorem completion_drops_directory (names : list string) (text cmd partial : string)
    (rest items : list string) (w : W) :
  Listing.has_blank text = true →
  Py.split text = cmd :: rest →
  Py.str_in cmd ["cd"; "ls"; "cat"; "rm"; "mkdir"; "touch"] = true →
  last rest = Some partial →
  os_path_isdir partial w = true →
  Listing.os_listdir partial w = Ok items →
  Listing.get_completions names true text w
  = Ok (if String.eqb partial "." then items
        else PosixPath.join (Listing.dirname partial) <$> items).
Proof.
  intros Hblank Hsplit Hcmd Hlast Hdir Hitems. unfold Listing.get_completions.
  cbn [negb]. rewrite strip_is_empty, Hblank.
  assert (Py.all_space text = false) as ->.
  { destruct (Py.all_space text) eqn:Hb; [|done].
    by rewrite (split_go_all_space text Hb : Py.split text = []) in Hsplit. }
  cbn [orb negb]. rewrite Hsplit, Hcmd, Hlast.
  change (default "" (Some partial)) with partial.
  rewrite Hdir, Hitems.
  replace (filter _ items) with items;
    [by destruct (String.eqb partial ".")|].
  clear. induction items as [|i items IH]; [done|].
  rewrite filter_cons_True by (by destruct i). by rewrite <- IH.
Qed.

End LsFacts.

#[local] Existing Instance Listing.sim_dir.

Lemma ls_raises_other_exceptions_witness :
  Listing.LsCommand_execute ["report.pdf"] Listing.w2
  = Raise (Sim.not_a_dir "report.pdf").
Proof.
  apply (ls_raises_other_exceptions ["report.pdf"] Listing.w2); [reflexivity|].
  vm_compute. intros H.
  repeat (inversion H as [|? ? ? H']; clear H; rename H' into H).
Defined.

Lemma ls_short_listing_witness :
  ∃ ds fs,
    Listing.LsCommand_execute ["Documents"] Listing.w2
    = Ok (Py.join "  " (((λ d, d +:+ "/") <$> ds) ++ fs))
    ∧ ds ++ fs ≡ₚ ["old"; "b.txt"; "a.txt"].
Proof.
  destruct (ls_short_listing ["Documents"] Listing.w2
              ["old"; "b.txt"; ".profile"; "a.txt"])
    as (ds & fs & Hexec & Hperm & _); [reflexivity..|].
  exists ds, fs. split; [exact Hexec|exact Hperm].
Defined.

Lemma completion_drops_directory_witness :
  Listing.get_completions ["cat"] true "cat Documents" Listing.w2
  = Ok ["old"; "b.txt"; ".profile"; "a.txt"].
Proof.
  apply (completion_drops_directory ["cat"] "cat Documents" "cat" "Documents"
           ["Documents"] ["old"; "b.txt"; ".profile"; "a.txt"] Listing.w2);
    reflexivity.
Defined.

(** ** Instances of the further properties *)

Lemma mkdir_stops_at_other_exception_witness :
  MkdirCommand_execute (OS0:=ReadOnly.readonly_os) ["a"; "b"] Sim.st0
  = (Raise ReadOnly.refused, set_world Sim.w0 Sim.st0).
Proof.
  apply (mkdir_stops_at_other_exception (OS0:=ReadOnly.readonly_os)
           "a" ["b"] Sim.st0 ReadOnly.refused Sim.w0);
    [reflexivity..|].
  vm_compute. intros H. repeat (inversion H as [|? ? ? H']; clear H; rename H' into H).
Defined.

Lemma loop_ignores_input_after_stop_witness :
  Shell.loop "user" "host" "/home/user" register_commands
    ([Shell.Line "exit"] ++ [Shell.Line "rm -r Documents"]) Sim.st0
  = Shell.loop "user" "host" "/home/user" register_commands
      [Shell.Line "exit"] Sim.st0.
Proof.
  apply (loop_ignores_input_after_stop "user" "host" "/home/user"
           register_commands [Shell.Line "exit"]
           [Shell.Line "rm -r Documents"] Sim.st0).
  vm_compute. reflexivity.
Defined.

Lemma exit_ends_the_loop_witness :
  Shell.loop "user" "host" "/home/user" register_commands
    [Shell.Line " exit  now"; Shell.Line "pwd"] Sim.st0
  = ([Shell.Prompt (Shell.get_prompt "user" "host" "/home/user"
                      (os_getcwd (world Sim.st0)));
      Shell.Print "Goodbye!"],
     Shell.set_running false (history_append " exit  now" Sim.st0)).
Proof.
  apply (exit_ends_the_loop "user" "host" "/home/user" " exit  now"
           [Shell.Line "pwd"] Sim.st0); vm_compute; reflexivity.
Defined.

Lemma echo_can_end_the_loop_witness :
  running (Shell.loop "user" "host" "/home/user" register_commands
             [Shell.Line "echo __EXIT__"; Shell.Line "pwd"] Sim.st0).2
  = false.
Proof.
  apply (echo_can_end_the_loop "user" "host" "/home/user" "echo __EXIT__"
           [Shell.Line "pwd"] Sim.st0); vm_compute; reflexivity.
Defined.

Lemma route_blank_raises_witness :
  Web.execute_command "user" "host" "/home/user"
    (ai_commands Sim.terminal) "   " Sim.st0
  = (Web.IndexError, Sim.st0).
Proof.
  apply (route_blank_raises "user" "host" "/home/user"
           (ai_commands Sim.terminal) "   " Sim.st0); [done|reflexivity].
Defined.

Lemma route_natural_language_witness :
  Web.routed (ai_commands Sim.terminal) "show  files in Documents"
  = Some ("nlp " +:+ "show  files in Documents")
  ∧ Term.execute_command (ai_commands Sim.terminal)
      ("nlp " +:+ "show  files in Documents") Sim.st0
    = NLP.execute Sim.terminal ["show"; "files"; "in"; "Documents"]
        (history_append ("nlp " +:+ "show  files in Documents") Sim.st0).
Proof.
  apply (route_natural_language Sim.terminal "show  files in Documents"
           "show" ["files"; "in"; "Documents"] Sim.st0);
    vm_compute; reflexivity.
Defined.
